(** * Meme Arena backend: the round cycle, the agents' strategies and the
      ledger calls, embedded from [main.py], [backend/main.py] and
      [backend/agents.py].

    The program is a Python asyncio service.  Everything it takes from the
    outside (the wall clock, the pseudo-random generator, the replies of the
    RPC node) is read from an environment [Env]; everything it changes
    (the requests sent to the node, the published live state) is kept in a
    [World] that the program threads through its calls.  Python exceptions
    are a result of their own, so that [try]/[except] can be written out. *)

From Stdlib Require Import QArith Lqa.
From stdpp Require Import gmap strings list fin_maps.

Local Open Scope string_scope.
Local Open Scope Z_scope.

(** ** Numbers

    Python [int] is [Z].  A Python [float] is a rational number, and the
    comparisons of floats are exact, so a float is a [Q] here.  The float
    literals below are the exact values of the IEEE doubles Python reads
    them as.  The sums and products of floats ([time.time() + 30],
    [random.uniform]) are taken exactly: their rounding is not modelled. *)

Definition Qltb (x y : Q) : bool := (Qnum x * QDen y <? Qnum y * QDen x)%Z.
Definition Qgtb (x y : Q) : bool := Qltb y x.

Definition two53 : positive := 9007199254740992.

Definition f0_1 : Q := 3602879701896397 # 36028797018963968.
Definition f0_15 : Q := 5404319552844595 # 36028797018963968.
Definition f0_25 : Q := 1 # 4.
Definition f0_3 : Q := 5404319552844595 # 18014398509481984.
Definition f0_35 : Q := 3152519739159347 # 9007199254740992.
Definition f0_4 : Q := 3602879701896397 # 9007199254740992.
Definition f0_5 : Q := 1 # 2.
Definition f0_6 : Q := 5404319552844595 # 9007199254740992.
Definition f0_7 : Q := 3152519739159347 # 4503599627370496.
Definition f3_0 : Q := 3 # 1.
Definition f4_0 : Q := 4 # 1.
Definition f6_0 : Q := 6 # 1.
Definition f10_0 : Q := 10 # 1.

(** [int(x)] of a float: truncation towards zero. *)
Definition int_of_float (x : Q) : Z := Z.quot (Qnum x) (Zpos (Qden x)).

(** ** Data *)

(** The three strings [execute_strategy] returns. *)
Inductive Decision := buy | sell | hold.

Global Instance Decision_eq_dec : EqDecision Decision.
Proof. solve_decision. Defined.

(** [MemeAgent]: the fields the round cycle reads. *)
Record MemeAgent := mkAgent {
  name : string;
  private_key : string;
  strategy : string;
  address : string
}.

Global Instance MemeAgent_eq_dec : EqDecision MemeAgent.
Proof. solve_decision. Defined.

(** One element of [history]. *)
Record Entry := mkEntry {
  time : Z;
  price : Q;
  balances : gmap string Z
}.

(** The dictionary the API serves ([live_state], and the [data] written to
    [history.json]). *)
Record Snapshot := mkSnapshot {
  phase : string;
  roundEndTime : Q;
  history : list Entry
}.

(** Transactions the admin account signs and sends. *)
Inductive Tx :=
  | setBettingActive (active : bool)
  | registerAgent (agent : string)
  | endRound (winner : string)
  | transfer (to : string) (value : Z).

(** Requests to the RPC node.  [send] stands for the source's idiom
    [build_transaction({.., "gasPrice": int(w3.eth.gas_price * 1.2),
    "nonce": nonce}); sign_transaction; send_raw_transaction]: one
    submission that the node accepts or that raises; the source never tells
    the failing step apart. *)
Inductive Request :=
  | get_transaction_count
  | isAgent (addr : string)
  | get_balance (addr : string)
  | send (tx : Tx) (nonce : Z).

Inductive Reply :=
  | raises
  | int_reply (n : Z)
  | bool_reply (b : bool)
  | hash_reply (h : string).

Inductive Exn :=
  | RpcError (r : Request)
  | KeyError (key : string).

(** ** The outside world *)

Record Env := mkEnv {
  clock : nat -> Q;                    (* what the n-th [time.time()] returns *)
  entropy : nat -> N;                  (* the n-th raw draw of the generator *)
  node_count : nat -> option Z;        (* replies of the node to its n-th   *)
  node_isAgent : nat -> string -> option bool;     (* request; [None]: the  *)
  node_balance : nat -> string -> option Z;        (* call raises           *)
  node_send : nat -> Tx -> Z -> option string
}.

Record World := mkWorld {
  clock_reads : nat;
  draws : nat;
  calls : list (Request * Reply);      (* oldest first *)
  live_state : Snapshot;
  published : list Snapshot            (* every state published, oldest first *)
}.

Definition initial_live_state : Snapshot :=
  {| phase := "WAITING"; roundEndTime := 0; history := [] |}.

Definition initial_world : World :=
  {| clock_reads := 0; draws := 0; calls := [];
     live_state := initial_live_state; published := [] |}.

(** ** Results and the monad of the program *)

Inductive Res (A : Type) :=
  | Ok (a : A)
  | Raise (e : Exn)
  | OutOfFuel.
Arguments Ok {A} a.
Arguments Raise {A} e.
Arguments OutOfFuel {A}.

Definition M (A : Type) : Type := Env -> World -> Res A * World.

Definition ret {A} (a : A) : M A := fun _ w => (Ok a, w).

Definition bind {A B} (m : M A) (k : A -> M B) : M B :=
  fun env w =>
    match m env w with
    | (Ok a, w') => k a env w'
    | (Raise e, w') => (Raise e, w')
    | (OutOfFuel, w') => (OutOfFuel, w')
    end.

Definition raise {A} (e : Exn) : M A := fun _ w => (Raise e, w).
Definition out_of_fuel {A} : M A := fun _ w => (OutOfFuel, w).

(** [try: m except Exception: h].  What [m] did to the world before it
    raised stays done. *)
Definition try_except {A} (m : M A) (h : Exn -> M A) : M A :=
  fun env w =>
    match m env w with
    | (Raise e, w') => h e env w'
    | r => r
    end.

Declare Scope prog_scope.
Delimit Scope prog_scope with prog.
Notation "x <- m ;; k" := (bind m (fun x => k))
  (at level 100, m at next level, right associativity) : prog_scope.
Notation "m ;;; k" := (bind m (fun _ => k))
  (at level 100, right associativity) : prog_scope.
Local Open Scope prog_scope.

(** *** Clock and generator *)

Definition time_time : M Q := fun env w =>
  (Ok (clock env (clock_reads w)),
   {| clock_reads := S (clock_reads w); draws := draws w; calls := calls w;
      live_state := live_state w; published := published w |}).

Definition draw : M N := fun env w =>
  (Ok (entropy env (draws w)),
   {| clock_reads := clock_reads w; draws := S (draws w); calls := calls w;
      live_state := live_state w; published := published w |}).

(** [random.random()]: a multiple of 2^-53 in [0, 1). *)
Definition random_random : M Q :=
  r <- draw ;; ret (Z.of_N r mod Zpos two53 # two53).

(** [random.randint(a, b)] is [a + _randbelow(b - a + 1)]. *)
Definition random_randint (a b : Z) : M Z :=
  r <- draw ;; ret (a + Z.of_N r mod (b - a + 1)).

(** [random.uniform(a, b)] is [a + (b - a) * random()]. *)
Definition random_uniform (a b : Q) : M Q :=
  r <- random_random ;; ret (a + (b - a) * r)%Q.

(** ** [agents.py] *)

Definition STRATEGIES : list string :=
  ["Sniper"; "Hodler"; "Degen"; "CopyTrader"; "Whale"].

Definition execute_strategy (self : MemeAgent) (market_price : Q) : M (Decision * Z) :=
  let strategy := strategy self in
  if String.eqb strategy "Sniper" then
    if Qltb market_price f4_0 then
      r <- random_random ;;
      if Qltb r f0_6 then amount <- random_randint 30 80 ;; ret (buy, amount)
      else ret (hold, 0)
    else
      r <- random_random ;;
      if Qltb r f0_15 then amount <- random_randint 10 30 ;; ret (buy, amount)
      else ret (hold, 0)
  else if String.eqb strategy "Hodler" then
    r <- random_random ;;
    if Qltb r f0_35 then amount <- random_randint 20 60 ;; ret (buy, amount)
    else ret (hold, 0)
  else if String.eqb strategy "Degen" then
    roll <- random_random ;;
    if Qltb roll f0_4 then amount <- random_randint 15 70 ;; ret (buy, amount)
    else if Qltb roll f0_7 then amount <- random_randint 10 40 ;; ret (sell, amount)
    else ret (hold, 0)
  else if String.eqb strategy "CopyTrader" then
    if Qgtb market_price f6_0 then
      r <- random_random ;;
      if Qltb r f0_5 then amount <- random_randint 20 60 ;; ret (buy, amount)
      else ret (hold, 0)
    else if Qltb market_price f3_0 then
      r <- random_random ;;
      if Qltb r f0_3 then amount <- random_randint 10 30 ;; ret (sell, amount)
      else ret (hold, 0)
    else
      r <- random_random ;;
      if Qltb r f0_3 then amount <- random_randint 10 40 ;; ret (buy, amount)
      else ret (hold, 0)
  else if String.eqb strategy "Whale" then
    r <- random_random ;;
    if Qltb r f0_25 then amount <- random_randint 40 80 ;; ret (buy, amount)
    else ret (hold, 0)
  else ret (hold, 0).

(** [async def trade]: prints the trade, or returns at once on [hold] or a
    zero amount.  It touches neither the balances nor the ledger. *)
Definition trade (self : MemeAgent) (action : Decision) (amount : Z) : M unit :=
  ret tt.

(** ** Ledger calls *)

Definition record_call (r : Request) (a : Reply) (w : World) : World :=
  {| clock_reads := clock_reads w; draws := draws w;
     calls := (calls w ++ [(r, a)])%list;
     live_state := live_state w; published := published w |}.

(** [w3.eth.get_transaction_count(admin_account.address)] *)
Definition w3_get_transaction_count : M Z := fun env w =>
  match node_count env (length (calls w)) with
  | Some n => (Ok n, record_call get_transaction_count (int_reply n) w)
  | None => (Raise (RpcError get_transaction_count),
             record_call get_transaction_count raises w)
  end.

(** [arena_contract.functions.isAgent(addr).call()] *)
Definition contract_isAgent (addr : string) : M bool := fun env w =>
  match node_isAgent env (length (calls w)) addr with
  | Some b => (Ok b, record_call (isAgent addr) (bool_reply b) w)
  | None => (Raise (RpcError (isAgent addr)), record_call (isAgent addr) raises w)
  end.

(** [w3.eth.get_balance(addr)] *)
Definition w3_get_balance (addr : string) : M Z := fun env w =>
  match node_balance env (length (calls w)) addr with
  | Some n => (Ok n, record_call (get_balance addr) (int_reply n) w)
  | None => (Raise (RpcError (get_balance addr)),
             record_call (get_balance addr) raises w)
  end.

(** Build, sign and send [tx] with sequence number [nonce]. *)
Definition send_transaction (tx : Tx) (nonce : Z) : M string := fun env w =>
  match node_send env (length (calls w)) tx nonce with
  | Some h => (Ok h, record_call (send tx nonce) (hash_reply h) w)
  | None => (Raise (RpcError (send tx nonce)), record_call (send tx nonce) raises w)
  end.

(** [time.sleep] and [asyncio.sleep]: time passes, which the next reading of
    the clock shows. *)
Definition sleep (seconds : Z) : M unit := ret tt.

(** [w3.to_wei(0.005, "ether")] and [w3.to_wei(0.02, "ether")] *)
Definition low_balance_wei : Z := 5000000000000000.
Definition top_up_wei : Z := 20000000000000000.

(** ** The code the two [market_loop]s share

    [main.py] and [backend/main.py] have the same text for the agents'
    decisions (main.py 266-273, backend 179-188), the history update
    (main.py 277-284, backend 192-202) and the end of the round
    (main.py 288-312, backend 213-243). *)

(** [round_balances[key]]: a missing key raises [KeyError]. *)
Definition dict_get (round_balances : gmap string Z) (key : string) : M Z :=
  match round_balances !! key with
  | Some bal => ret bal
  | None => raise (KeyError key)
  end.

(** [round_balances = {agent.name: 0 for agent in agents}] *)
Definition zero_balances (agents : list MemeAgent) : gmap string Z :=
  foldl (fun d agent => <[name agent := 0]> d) ∅ agents.

(** [if decision == "buy": round_balances[agent.name] += amount
     elif decision == "sell":
         round_balances[agent.name] = max(0, round_balances[agent.name] - amount)] *)
Definition apply_decision (round_balances : gmap string Z) (agent : MemeAgent)
    (decision : Decision) (amount : Z) : M (gmap string Z) :=
  match decision with
  | buy =>
      bal <- dict_get round_balances (name agent) ;;
      ret (<[name agent := bal + amount]> round_balances)
  | sell =>
      bal <- dict_get round_balances (name agent) ;;
      ret (<[name agent := Z.max 0 (bal - amount)]> round_balances)
  | hold => ret round_balances
  end.

(** [for agent in agents: decision, amount = agent.execute_strategy(mock_price); ...] *)
Fixpoint agents_decide (agents : list MemeAgent) (mock_price : Q)
    (round_balances : gmap string Z) : M (gmap string Z) :=
  match agents with
  | [] => ret round_balances
  | agent :: rest =>
      d <- execute_strategy agent mock_price ;;
      let '(decision, amount) := d in
      trade agent decision amount ;;;
      round_balances <- apply_decision round_balances agent decision amount ;;
      agents_decide rest mock_price round_balances
  end.

(** [history.append(entry); if len(history) > 50: history.pop(0)] *)
Definition history_append (history : list Entry) (entry : Entry) : list Entry :=
  let history := (history ++ [entry])%list in
  if (50 <? length history)%nat then drop 1 history else history.

(** The loop [for agent in agents: bal = round_balances[agent.name];
    if bal > highest: highest = bal; winner_agent = agent]. *)
Fixpoint highest_balance (agents : list MemeAgent) (round_balances : gmap string Z)
    (winner_agent : option MemeAgent) (highest : Z) : M (option MemeAgent * Z) :=
  match agents with
  | [] => ret (winner_agent, highest)
  | agent :: rest =>
      bal <- dict_get round_balances (name agent) ;;
      if bal >? highest
      then highest_balance rest round_balances (Some agent) bal
      else highest_balance rest round_balances winner_agent highest
  end.

(** The block under [--- ROUND OVER ---]: [winner_agent = None; highest = 0],
    the loop, and [endRound] under [if winner_agent:]. *)
Definition round_over (agents : list MemeAgent) (round_balances : gmap string Z)
    : M unit :=
  r <- highest_balance agents round_balances None 0 ;;
  let '(winner_agent, highest) := r in
  match winner_agent with
  | Some winner =>
      try_except
        (nonce <- w3_get_transaction_count ;;
         tx_hash <- send_transaction (endRound (address winner)) nonce ;;
         ret tt)
        (fun e => ret tt)
  | None => ret tt
  end.

(** [setBettingActive(flag)] under its [try]/[except]. *)
Definition set_betting (flag : bool) : M unit :=
  try_except
    (nonce <- w3_get_transaction_count ;;
     tx_hash <- send_transaction (setBettingActive flag) nonce ;;
     ret tt)
    (fun e => ret tt).

(** The local variables of [market_loop] that live across its rounds:
    [history], and [round_balances], which is unbound until the first game
    phase assigns it. *)
Record Locals := mkLocals {
  loc_history : list Entry;
  loc_round_balances : option (gmap string Z)
}.

(** ** [main.py]: the service behind the API *)

Module RootMain.

(** The loop body of [register_agents] (lines 157-172). *)
Definition register_agent (agent : MemeAgent) (nonce : Z) : M Z :=
  try_except
    (registered <- contract_isAgent (address agent) ;;
     if registered then ret nonce
     else
       tx_hash <- send_transaction (registerAgent (address agent)) nonce ;;
       sleep 1 ;;;
       ret (nonce + 1))
    (fun e => ret nonce).

Fixpoint register_loop (agents : list MemeAgent) (nonce : Z) : M unit :=
  match agents with
  | [] => ret tt
  | agent :: rest =>
      nonce <- register_agent agent nonce ;;
      register_loop rest nonce
  end.

Definition register_agents (agents : list MemeAgent) : M unit :=
  nonce <- w3_get_transaction_count ;;
  register_loop agents nonce.

(** The loop body of [fund_agents] (lines 180-198). *)
Definition fund_agent (agent : MemeAgent) (nonce : Z) : M Z :=
  try_except
    (balance <- w3_get_balance (address agent) ;;
     if balance <? low_balance_wei then
       tx_hash <- send_transaction (transfer (address agent) top_up_wei) nonce ;;
       sleep 1 ;;;
       ret (nonce + 1)
     else ret nonce)
    (fun e => ret nonce).

Fixpoint fund_loop (agents : list MemeAgent) (nonce : Z) : M unit :=
  match agents with
  | [] => ret tt
  | agent :: rest =>
      nonce <- fund_agent agent nonce ;;
      fund_loop rest nonce
  end.

Definition fund_agents (agents : list MemeAgent) : M unit :=
  nonce <- w3_get_transaction_count ;;
  fund_loop agents nonce.

(** [update_state]: the three assignments to [live_state].  The copy
    [list(history)] is the value of the list.  The write to
    [frontend/public/history.json] is under [except Exception: pass] and
    changes nothing the program reads. *)
Definition update_state (phase : string) (round_end_time : Q)
    (history : list Entry) : M unit := fun env w =>
  let s := {| phase := phase; roundEndTime := round_end_time;
              history := history |} in
  (Ok tt,
   {| clock_reads := clock_reads w; draws := draws w; calls := calls w;
      live_state := s; published := (published w ++ [s])%list |}).

(** [while time.time() < betting_end: update_state(..); await asyncio.sleep(1)] *)
Fixpoint betting_phase (fuel : nat) (betting_end : Q) (history : list Entry)
    : M unit :=
  match fuel with
  | O => out_of_fuel
  | S fuel =>
      now <- time_time ;;
      if Qltb now betting_end then
        update_state "BETTING" betting_end history ;;;
        sleep 1 ;;;
        betting_phase fuel betting_end history
      else ret tt
  end.

(** One turn of the inner [while True], up to [update_state] (lines
    263-286): the price, the agents' decisions, the new history entry and
    the published state.  [round_duration] is 90. *)
Definition market_tick (agents : list MemeAgent) (start_time : Q)
    (round_balances : gmap string Z) (history : list Entry)
    : M (gmap string Z * list Entry) :=
  mock_price <- random_uniform f0_1 f10_0 ;;
  round_balances <- agents_decide agents mock_price round_balances ;;
  now <- time_time ;;
  let entry := {| time := int_of_float now; price := mock_price;
                  balances := round_balances |} in
  let history := history_append history entry in
  update_state "ROUND" (start_time + 90)%Q history ;;;
  ret (round_balances, history).

(** The inner [while True] (lines 262-314). *)
Fixpoint game_phase (fuel : nat) (agents : list MemeAgent) (start_time : Q)
    (round_balances : gmap string Z) (history : list Entry)
    : M Locals :=
  match fuel with
  | O => out_of_fuel
  | S fuel =>
      st <- market_tick agents start_time round_balances history ;;
      let '(round_balances, history) := st in
      now <- time_time ;;
      if Qgtb (now - start_time)%Q 90 then
        round_over agents round_balances ;;;
        ret (mkLocals history (Some round_balances))
      else
        sleep 2 ;;;
        game_phase fuel agents start_time round_balances history
  end.

(** One turn of the outer [while True] (lines 222-314). *)
Definition round (fuel : nat) (agents : list MemeAgent) (locals : Locals)
    : M Locals :=
  fund_agents agents ;;;
  set_betting true ;;;
  now <- time_time ;;
  let betting_end := (now + 30)%Q in
  betting_phase fuel betting_end (loc_history locals) ;;;
  set_betting false ;;;
  start_time <- time_time ;;
  let round_balances := zero_balances agents in
  game_phase fuel agents start_time round_balances (loc_history locals).

Fixpoint rounds_from (rounds fuel : nat) (agents : list MemeAgent)
    (locals : Locals) : M Locals :=
  match rounds with
  | O => ret locals
  | S rounds =>
      locals <- round fuel agents locals ;;
      rounds_from rounds fuel agents locals
  end.

(** [market_loop] never returns.  Its first [rounds] rounds are run here,
    each inner loop with [fuel] turns at most, and the local variables are
    returned as they stand when the next round would start. *)
Definition market_loop (rounds fuel : nat) (agents : list MemeAgent) : M Locals :=
  rounds_from rounds fuel agents (mkLocals [] None).

(** [blockchain_startup], from the loaded ABI on.  The three flags are the
    checks that return before any ledger call; [agents] is what
    [create_agents] built from the key file. *)
Definition blockchain_startup (abi_found connected key_found : bool)
    (rounds fuel : nat) (agents : list MemeAgent) : M unit :=
  sleep 1 ;;;
  if negb abi_found then ret tt
  else
    try_except
      (if negb connected then ret tt
       else if negb key_found then ret tt
       else
         fund_agents agents ;;;
         register_agents agents ;;;
         market_loop rounds fuel agents ;;;
         ret tt)
      (fun e => ret tt).

End RootMain.

(** ** [backend/main.py]: the script that writes [history.json] *)

Module BackendMain.

(** [register_agents] (lines 52-75): the same steps, with no [try]. *)
Definition register_agent (agent : MemeAgent) (nonce : Z) : M Z :=
  is_registered <- contract_isAgent (address agent) ;;
  if is_registered then ret nonce
  else
    tx_hash <- send_transaction (registerAgent (address agent)) nonce ;;
    sleep 1 ;;;
    ret (nonce + 1).

Fixpoint register_loop (agents : list MemeAgent) (nonce : Z) : M unit :=
  match agents with
  | [] => ret tt
  | agent :: rest =>
      nonce <- register_agent agent nonce ;;
      register_loop rest nonce
  end.

Definition register_agents (agents : list MemeAgent) : M unit :=
  nonce <- w3_get_transaction_count ;;
  register_loop agents nonce.

(** [fund_agents] (lines 250-279), with no [try] either. *)
Definition fund_agent (agent : MemeAgent) (nonce : Z) : M Z :=
  balance <- w3_get_balance (address agent) ;;
  if balance <? low_balance_wei then
    tx_hash <- send_transaction (transfer (address agent) top_up_wei) nonce ;;
    sleep 1 ;;;
    ret (nonce + 1)
  else ret nonce.

Fixpoint fund_loop (agents : list MemeAgent) (nonce : Z) : M unit :=
  match agents with
  | [] => ret tt
  | agent :: rest =>
      nonce <- fund_agent agent nonce ;;
      fund_loop rest nonce
  end.

Definition fund_agents (agents : list MemeAgent) : M unit :=
  nonce <- w3_get_transaction_count ;;
  fund_loop agents nonce.

(** [with open(HISTORY_FILE, "w") as f: json.dump(data, f)]: the file is
    what this script publishes.  The write is taken to succeed. *)
Definition write_history_file (data : Snapshot) : M unit := fun env w =>
  (Ok tt,
   {| clock_reads := clock_reads w; draws := draws w; calls := calls w;
      live_state := live_state w; published := (published w ++ [data])%list |}).

(** The betting loop (lines 139-150). *)
Fixpoint betting_phase (fuel : nat) (betting_end : Q) (history : list Entry)
    : M unit :=
  match fuel with
  | O => out_of_fuel
  | S fuel =>
      now <- time_time ;;
      if Qltb now betting_end then
        timestamp <- time_time ;;
        write_history_file {| phase := "BETTING"; roundEndTime := betting_end;
                              history := history |} ;;;
        sleep 1 ;;;
        betting_phase fuel betting_end history
      else ret tt
  end.

(** One turn of the inner market loop, up to the write of the file
    (lines 175-211). *)
Definition market_tick (agents : list MemeAgent) (start_time : Q)
    (round_balances : gmap string Z) (history : list Entry)
    : M (gmap string Z * list Entry) :=
  mock_price <- random_uniform f0_1 f10_0 ;;
  round_balances <- agents_decide agents mock_price round_balances ;;
  now <- time_time ;;
  let entry := {| time := int_of_float now; price := mock_price;
                  balances := round_balances |} in
  let history := history_append history entry in
  write_history_file {| phase := "ROUND";
                        roundEndTime := (start_time + 90)%Q;
                        history := history |} ;;;
  ret (round_balances, history).

(** The inner market loop (lines 174-246). *)
Fixpoint game_phase (fuel : nat) (agents : list MemeAgent) (start_time : Q)
    (round_balances : gmap string Z) (history : list Entry)
    : M Locals :=
  match fuel with
  | O => out_of_fuel
  | S fuel =>
      st <- market_tick agents start_time round_balances history ;;
      let '(round_balances, history) := st in
      now <- time_time ;;
      if Qgtb (now - start_time)%Q 90 then
        round_over agents round_balances ;;;
        ret (mkLocals history (Some round_balances))
      else
        sleep 2 ;;;
        game_phase fuel agents start_time round_balances history
  end.

(** One turn of the outer loop (lines 116-246). *)
Definition round (fuel : nat) (agents : list MemeAgent) (locals : Locals)
    : M Locals :=
  fund_agents agents ;;;
  set_betting true ;;;
  now <- time_time ;;
  let betting_end := (now + 30)%Q in
  betting_phase fuel betting_end (loc_history locals) ;;;
  set_betting false ;;;
  start_time <- time_time ;;
  let round_balances := zero_balances agents in
  game_phase fuel agents start_time round_balances (loc_history locals).

Fixpoint rounds_from (rounds fuel : nat) (agents : list MemeAgent)
    (locals : Locals) : M Locals :=
  match rounds with
  | O => ret locals
  | S rounds =>
      locals <- round fuel agents locals ;;
      rounds_from rounds fuel agents locals
  end.

(** The first [rounds] rounds of [market_loop], as in [RootMain]. *)
Definition market_loop (rounds fuel : nat) (agents : list MemeAgent) : M Locals :=
  start_time <- time_time ;;
  rounds_from rounds fuel agents (mkLocals [] None).

(** [main], after [create_agents]. *)
Definition main (rounds fuel : nat) (agents : list MemeAgent) : M unit :=
  fund_agents agents ;;;
  register_agents agents ;;;
  market_loop rounds fuel agents ;;;
  ret tt.

End BackendMain.

(** The agents [create_agents] builds: one per strategy, named
    [Agent_<strategy>]; the keys come from [agent_keys.json], the address
    from the key. *)
Definition create_agents (key_of address_of : string -> string) : list MemeAgent :=
  map (fun strategy =>
         let agent_name := "Agent_" +:+ strategy in
         let private_key := key_of agent_name in
         mkAgent agent_name private_key strategy (address_of private_key))
      STRATEGIES.

(** ** Tables read off [execute_strategy]

    The quantities each strategy draws when it buys and when it sells
    ([None]: the strategy never takes that action). *)

Definition buy_range (strategy : string) : option (Z * Z) :=
  if String.eqb strategy "Sniper" then Some (10, 80)
  else if String.eqb strategy "Hodler" then Some (20, 60)
  else if String.eqb strategy "Degen" then Some (15, 70)
  else if String.eqb strategy "CopyTrader" then Some (10, 60)
  else if String.eqb strategy "Whale" then Some (40, 80)
  else None.

Definition sell_range (strategy : string) : option (Z * Z) :=
  if String.eqb strategy "Sniper" then None
  else if String.eqb strategy "Hodler" then None
  else if String.eqb strategy "Degen" then Some (10, 40)
  else if String.eqb strategy "CopyTrader" then Some (10, 30)
  else None.

(** The range of a strategy's non-zero quantities, buying or selling. *)
Definition quantity_range (strategy : string) : Z * Z :=
  if String.eqb strategy "Sniper" then (10, 80)
  else if String.eqb strategy "Hodler" then (20, 60)
  else if String.eqb strategy "Degen" then (10, 70)
  else if String.eqb strategy "CopyTrader" then (10, 60)
  else if String.eqb strategy "Whale" then (40, 80)
  else (0, 0).

Definition within (r : option (Z * Z)) (amount : Z) : Prop :=
  match r with
  | Some (lo, hi) => lo <= amount <= hi
  | None => False
  end.

(** What [execute_strategy] may return for a strategy. *)
Definition decision_allowed (strategy : string) (d : Decision) (amount : Z) : Prop :=
  match d with
  | buy => within (buy_range strategy) amount
  | sell => within (sell_range strategy) amount
  | hold => amount = 0
  end.

Definition never_sells (strategy : string) : Prop := sell_range strategy = None.

(** The world after [k] more draws of the generator. *)
Definition after_draws (k : nat) (w : World) : World :=
  {| clock_reads := clock_reads w; draws := (k + draws w)%nat; calls := calls w;
     live_state := live_state w; published := published w |}.

(** ** A concrete environment for the examples

    The clock advances by 10 seconds at every reading, the generator
    returns the multiples of 2^51, the node accepts every request, finds
    no agent registered and every balance high enough. *)

Definition example_env : Env :=
  {| clock := fun n => (1700000000 + 10 * Z.of_nat n) # 1;
     entropy := fun n => (N.of_nat n * 2251799813685248)%N;
     node_count := fun n => Some (Z.of_nat n);
     node_isAgent := fun _ _ => Some false;
     node_balance := fun _ _ => Some 30000000000000000;
     node_send := fun _ _ _ => Some "0xhash" |}.

Definition example_agents : list MemeAgent :=
  create_agents (fun agent_name => "key of " +:+ agent_name)
                (fun key => "address of " +:+ key).

Definition agent_Sniper : MemeAgent :=
  mkAgent "Agent_Sniper" "key of Agent_Sniper" "Sniper"
          "address of key of Agent_Sniper".

Definition agent_Degen : MemeAgent :=
  mkAgent "Agent_Degen" "key of Agent_Degen" "Degen"
          "address of key of Agent_Degen".

(** The balance after one decision is applied to it. *)
Definition updated_balance (bal : Z) (decision : Decision) (amount : Z) : Z :=
  match decision with
  | buy => bal + amount
  | sell => Z.max 0 (bal - amount)
  | hold => bal
  end.

(** How one pass of the agents' loop may change the balances: no key comes
    or goes, a balance that was not negative is not negative afterwards, and
    a balance that only agents of never-selling strategies write does not
    decrease. *)
Definition tick_rel (agents : list MemeAgent) (rb rb' : gmap string Z) : Prop :=
  dom rb' = dom rb
  /\ forall key b, rb !! key = Some b ->
       exists b', rb' !! key = Some b'
         /\ (0 <= b -> 0 <= b')
         /\ ((forall a, In a agents -> name a = key -> never_sells (strategy a))
             -> b <= b').

Definition all_keys (agents : list MemeAgent) (rb : gmap string Z) : Prop :=
  forall a, In a agents -> is_Some (rb !! name a).

Definition nonneg_balances (rb : gmap string Z) : Prop :=
  forall key b, rb !! key = Some b -> 0 <= b.

(** ** Reading the end of the round *)

(** [round_balances[agent.name]] where the key is present. *)
Definition balance_of (rb : gmap string Z) (a : MemeAgent) : Z :=
  default 0 (rb !! name a).

(** The requests of one attempt to settle for [addr]: the nonce is asked
    for, and when the node gives it, [endRound(addr)] is sent with it. *)
Definition settlement_attempt (addr : string) (cs : list (Request * Reply)) : Prop :=
  cs = [(get_transaction_count, raises)]
  \/ exists n r, cs = [(get_transaction_count, int_reply n);
                       (send (endRound addr) n, r)].

(** [winner] is the first agent of the list whose balance is the highest,
    and that balance is positive. *)
Definition first_highest (agents : list MemeAgent) (rb : gmap string Z)
    (winner : MemeAgent) : Prop :=
  exists pre post,
    agents = (pre ++ winner :: post)%list
    /\ 0 < balance_of rb winner
    /\ (forall a, In a pre -> balance_of rb a < balance_of rb winner)
    /\ (forall a, In a post -> balance_of rb a <= balance_of rb winner).

(** [a] is alone with the highest balance, and that balance is positive. *)
Definition strict_winner (agents : list MemeAgent) (rb : gmap string Z)
    (a : MemeAgent) : Prop :=
  In a agents /\ 0 < balance_of rb a
  /\ forall a', In a' agents -> a' <> a -> balance_of rb a' < balance_of rb a.

Definition sends_endRound (cs : list (Request * Reply)) : Prop :=
  exists addr n r, In (send (endRound addr) n, r) cs.

(** The rule "settle exactly when one participant is alone at the top",
    read on the requests [round_over] makes from a world with no request
    yet. *)
Definition settles_only_strict_winner (agents : list MemeAgent)
    (rb : gmap string Z) (env : Env) : Prop :=
  let cs := calls (snd (round_over agents rb env initial_world)) in
  sends_endRound cs <-> exists a, strict_winner agents rb a.

(** Balances at the end of a round in which two agents share the top. *)
Definition tied_balances : gmap string Z :=
  <["Agent_Whale" := 0]> (<["Agent_CopyTrader" := 12]> (<["Agent_Degen" := 0]>
  (<["Agent_Hodler" := 40]> (<["Agent_Sniper" := 40]> ∅)))).

(** ** Reading a game phase *)

(** [rb'] is what one pass of the agents' loop makes of [rb], for some
    price and some state of the generator. *)
Definition decided (agents : list MemeAgent) (rb rb' : gmap string Z) : Prop :=
  exists mock_price env w w',
    agents_decide agents mock_price rb env w = (Ok rb', w').

(** The entries of successive ticks: each records the balances the agents'
    loop made of the balances of the entry before; the first starts from
    [rb]. *)
Fixpoint tick_chain (agents : list MemeAgent) (rb : gmap string Z)
    (es : list Entry) : Prop :=
  match es with
  | [] => True
  | e :: es' => decided agents rb (balances e) /\ tick_chain agents (balances e) es'
  end.

(** The balances after the ticks that recorded [es]. *)
Definition final_balances (rb : gmap string Z) (es : list Entry) : gmap string Z :=
  foldl (fun _ e => balances e) rb es.

(** The states published by the ticks that recorded [es], from the history
    [h]. *)
Fixpoint round_snapshots (round_end : Q) (h : list Entry) (es : list Entry)
    : list Snapshot :=
  match es with
  | [] => []
  | e :: es' =>
      let h' := history_append h e in
      {| phase := "ROUND"; roundEndTime := round_end; history := h' |}
        :: round_snapshots round_end h' es'
  end.

(** The states published by [n] turns of a betting loop. *)
Definition betting_snapshots (n : nat) (betting_end : Q) (h : list Entry)
    : list Snapshot :=
  replicate n {| phase := "BETTING"; roundEndTime := betting_end; history := h |}.

(** ** Reading the claims on the program *)

(** A list of balances that never decreases, from [b] on. *)
Fixpoint nondecreasing_from (b : Z) (l : list Z) : Prop :=
  match l with
  | [] => True
  | x :: l' => b <= x /\ nondecreasing_from x l'
  end.

Definition no_sell_strategies : list string := ["Sniper"; "Hodler"; "Whale"].

(** What a snapshot of the trading phase would be after [ticks_done] ticks
    of that phase, were the phase called TRADING and the history counted
    from the phase's entry. *)
Definition trading_snapshot_as_claimed (ticks_done : nat) (phase_end : Q)
    (s : Snapshot) : Prop :=
  phase s = "TRADING"
  /\ length (history s) = Nat.min 50 ticks_done
  /\ roundEndTime s = phase_end.

(** "Every agent's balance is 0", read on the local variables as they stand
    when a round, and so its betting phase, starts.  Before the first round
    [round_balances] is unbound, and nothing is asked. *)
Definition zero_at_betting_start (agents : list MemeAgent) (locals : Locals) : Prop :=
  match loc_round_balances locals with
  | Some rb => forall a, In a agents -> rb !! name a = Some 0
  | None => True
  end.

(** The balances after the first pass of the agents' loop in the example. *)
Definition example_tick_balances : gmap string Z :=
  match fst (agents_decide example_agents (5 # 2) (zero_balances example_agents)
               example_env initial_world) with
  | Ok rb => rb
  | _ => ∅
  end.

Definition example_entry : Entry :=
  {| time := 1700000050; price := 5 # 2; balances := example_tick_balances |}.

(** The example environment, but the node rejects the registration of
    Agent_Sniper. *)
Definition register_fails_env : Env :=
  {| clock := clock example_env;
     entropy := entropy example_env;
     node_count := node_count example_env;
     node_isAgent := node_isAgent example_env;
     node_balance := node_balance example_env;
     node_send := fun _ tx _ =>
       match tx with
       | registerAgent a =>
           if String.eqb a "address of key of Agent_Sniper" then None
           else Some "0xhash"
       | _ => Some "0xhash"
       end |}.

(** The example environment, but every agent is registered already and the
    node fails to give the nonce asked for by the funding sweep that opens
    the first round (its 13th request). *)
Definition nonce_fails_env : Env :=
  {| clock := clock example_env;
     entropy := entropy example_env;
     node_count := fun n => if (n =? 12)%nat then None else Some (Z.of_nat n);
     node_isAgent := fun _ _ => Some true;
     node_balance := node_balance example_env;
     node_send := node_send example_env |}.

Definition sends_setBettingActive (cs : list (Request * Reply)) : Prop :=
  exists flag n r, In (send (setBettingActive flag) n, r) cs.

(** The requests of the registration of one agent: the check, and the
    submission after it exactly when the check answered [False]. *)
Definition registration_requests (agent : MemeAgent) (nonce : Z)
    (cs : list (Request * Reply)) : Prop :=
  exists reply rest,
    cs = (isAgent (address agent), reply) :: rest
    /\ (reply = bool_reply false ->
        exists r, rest = [(send (registerAgent (address agent)) nonce, r)])
    /\ (reply <> bool_reply false -> rest = []).

(** A clock that advances by a second at least from one reading to the
    next, and a node that always gives the nonce. *)
Definition clock_advances (env : Env) : Prop :=
  forall n, (clock env n + 1 <= clock env (S n))%Q.

Definition nonce_given (env : Env) : Prop :=
  forall k, is_Some (node_count env k).

(** The number of submissions the node accepted among [cs]. *)
Fixpoint accepted (cs : list (Request * Reply)) : Z :=
  match cs with
  | [] => 0
  | (send _ _, hash_reply _) :: cs' => 1 + accepted cs'
  | _ :: cs' => accepted cs'
  end.

(** The requests of the registrations of [agents], one agent after the
    other in the order of the list: each agent's requests are those of
    [registration_requests] with the nonce as it then stands, [nonce] plus
    the number of submissions accepted before. *)
Fixpoint registration_sweep (agents : list MemeAgent) (nonce : Z)
    (cs : list (Request * Reply)) : Prop :=
  match agents with
  | [] => cs = []
  | agent :: rest =>
      exists block cs',
        cs = (block ++ cs')%list
        /\ registration_requests agent nonce block
        /\ registration_sweep rest (nonce + accepted block) cs'
  end.

(** A computation that does not read the clock. *)
Definition clockless {A} (m : M A) : Prop :=
  forall env w, clock_reads (snd (m env w)) = clock_reads w.


(** * Properties *)

(** ** The monad *)

Lemma bind_Ok {A B} (m : M A) (k : A -> M B) env w a w' :
  m env w = (Ok a, w') -> bind m k env w = k a env w'.
Proof. intros H. unfold bind. by rewrite H. Qed.

Lemma bind_Raise {A B} (m : M A) (k : A -> M B) env w e w' :
  m env w = (Raise e, w') -> bind m k env w = (Raise e, w').
Proof. intros H. unfold bind. by rewrite H. Qed.

Lemma bind_OutOfFuel {A B} (m : M A) (k : A -> M B) env w w' :
  m env w = (OutOfFuel, w') -> bind m k env w = (OutOfFuel, w').
Proof. intros H. unfold bind. by rewrite H. Qed.

Lemma try_Ok {A} (m : M A) h env w a w' :
  m env w = (Ok a, w') -> try_except m h env w = (Ok a, w').
Proof. intros H. unfold try_except. by rewrite H. Qed.

Lemma try_Raise {A} (m : M A) h env w e w' :
  m env w = (Raise e, w') -> try_except m h env w = h e env w'.
Proof. intros H. unfold try_except. by rewrite H. Qed.

Lemma after_draws_0 w : after_draws 0 w = w.
Proof. by destruct w. Qed.

Lemma after_draws_add j k w : after_draws j (after_draws k w) = after_draws (j + k) w.
Proof. unfold after_draws; simpl. f_equal. lia. Qed.

(** ** The generator *)

Lemma random_random_eq env w :
  random_random env w =
    (Ok (Z.of_N (entropy env (draws w)) mod Zpos two53 # two53), after_draws 1 w).
Proof. reflexivity. Qed.

Lemma random_randint_eq a b env w :
  random_randint a b env w =
    (Ok (a + Z.of_N (entropy env (draws w)) mod (b - a + 1)), after_draws 1 w).
Proof. reflexivity. Qed.

Lemma randint_bounds a b r : a <= b -> a <= a + r mod (b - a + 1) <= b.
Proof. intros H. pose proof (Z.mod_pos_bound r (b - a + 1)). lia. Qed.

(** ** [execute_strategy] *)

Ltac strategy_step :=
  match goal with
  | |- context [bind random_random _ ?env ?w] =>
      rewrite (bind_Ok random_random _ env w _ _ (random_random_eq env w))
  | |- context [bind (random_randint ?a ?b) _ ?env ?w] =>
      rewrite (bind_Ok (random_randint a b) _ env w _ _ (random_randint_eq a b env w))
  | |- context [if ?c then _ else _] => destruct c eqn:?
  end.

Lemma execute_strategy_spec (self : MemeAgent) (market_price : Q) env w :
  exists d amount k,
    execute_strategy self market_price env w = (Ok (d, amount), after_draws k w)
    /\ decision_allowed (strategy self) d amount.
Proof.
  unfold execute_strategy, decision_allowed, buy_range, sell_range.
  repeat (strategy_step; cbv beta).
  all: unfold ret; rewrite ?after_draws_add.
  all: first [ do 3 eexists; split; [reflexivity|]
             | exists hold, 0, 0%nat; split; [by rewrite after_draws_0|] ].
  all: cbn [within]; try reflexivity.
  all: match goal with
       | |- context [?r `mod` ?m] =>
           let H := fresh in
           assert (H : 0 <= r `mod` m < m) by (apply Z.mod_pos_bound; lia); lia
       end.
Qed.

Lemma allowed_quantity_range (s : string) d amount :
  In s STRATEGIES -> decision_allowed s d amount ->
  (d = hold -> amount = 0)
  /\ (d <> hold -> fst (quantity_range s) <= amount <= snd (quantity_range s))
  /\ 0 <= fst (quantity_range s) /\ snd (quantity_range s) <= 80
  /\ 0 <= amount <= 80.
Proof.
  intros Hs Hd. simpl in Hs.
  repeat (destruct Hs as [<- | Hs]; [ | ]); try contradiction.
  all: destruct d; cbn in Hd |- *; try contradiction.
  all: repeat split; try congruence; try lia.
Qed.

(** C4.  For every strategy of [STRATEGIES] and every price between 0.1 and
    10.0, [execute_strategy] returns; the amount is 0 when the decision is
    [hold], and otherwise an integer within the range of the strategy's
    quantities, which lies within 0..80. *)
Theorem execute_strategy_quantity (self : MemeAgent) (market_price : Q) env w :
  In (strategy self) STRATEGIES ->
  (f0_1 <= market_price)%Q /\ (market_price <= f10_0)%Q ->
  exists d amount w',
    execute_strategy self market_price env w = (Ok (d, amount), w')
    /\ (d = hold -> amount = 0)
    /\ (d <> hold ->
        fst (quantity_range (strategy self)) <= amount
          <= snd (quantity_range (strategy self)))
    /\ 0 <= fst (quantity_range (strategy self))
    /\ snd (quantity_range (strategy self)) <= 80
    /\ 0 <= amount <= 80.
Proof.
  intros Hs _.
  destruct (execute_strategy_spec self market_price env w) as (d & amount & k & E & Hd).
  exists d, amount, (after_draws k w). split; [exact E|].
  by apply allowed_quantity_range.
Qed.

Lemma execute_strategy_quantity_witness :
  In (strategy agent_Degen) STRATEGIES
  /\ ((f0_1 <= 5 # 2)%Q /\ (5 # 2 <= f10_0)%Q)
  /\ exists d amount w',
       execute_strategy agent_Degen (5 # 2) example_env initial_world
         = (Ok (d, amount), w')
       /\ (d = hold -> amount = 0)
       /\ (d <> hold ->
           fst (quantity_range (strategy agent_Degen)) <= amount
             <= snd (quantity_range (strategy agent_Degen)))
       /\ 0 <= fst (quantity_range (strategy agent_Degen))
       /\ snd (quantity_range (strategy agent_Degen)) <= 80
       /\ 0 <= amount <= 80.
Proof.
  assert (H1 : In (strategy agent_Degen) STRATEGIES) by (simpl; tauto).
  assert (H2 : (f0_1 <= 5 # 2)%Q /\ (5 # 2 <= f10_0)%Q)
    by (split; unfold Qle; simpl; lia).
  split; [exact H1|]. split; [exact H2|].
  exact (execute_strategy_quantity agent_Degen (5 # 2) example_env initial_world H1 H2).
Defined.

Example execute_strategy_Degen_example :
  fst (execute_strategy agent_Degen (5 # 2) example_env initial_world)
    = Ok (buy, 23).
Proof. vm_compute. reflexivity. Qed.

(** ** The agents' loop *)

Lemma allowed_nonneg s d amount : decision_allowed s d amount -> 0 <= amount.
Proof.
  unfold decision_allowed, within, buy_range, sell_range.
  destruct d; repeat case_match; simplify_eq; lia.
Qed.

Lemma allowed_never_sells s d amount :
  never_sells s -> decision_allowed s d amount -> d <> sell.
Proof.
  unfold never_sells. intros Hs Hd ->. simpl in Hd. by rewrite Hs in Hd.
Qed.

Lemma apply_decision_eq rb agent d amount env w bal :
  rb !! name agent = Some bal ->
  apply_decision rb agent d amount env w
    = (Ok (<[name agent := updated_balance bal d amount]> rb), w).
Proof.
  intros Hb. unfold apply_decision, dict_get, bind, ret.
  destruct d; simpl; rewrite ?Hb; try reflexivity.
  by rewrite insert_id.
Qed.

Lemma apply_decision_KeyError rb agent d amount env w :
  rb !! name agent = None -> d <> hold ->
  apply_decision rb agent d amount env w = (Raise (KeyError (name agent)), w).
Proof.
  intros Hb Hd. unfold apply_decision, dict_get, bind, raise.
  destruct d; simpl; rewrite ?Hb; congruence.
Qed.

Lemma tick_rel_refl agents rb : tick_rel agents rb rb.
Proof. split; [done|]. intros key b Hb. exists b. split; [done|]. split; [done|]. lia. Qed.

Lemma agents_decide_spec agents mock_price rb env w :
  all_keys agents rb ->
  exists rb' k,
    agents_decide agents mock_price rb env w = (Ok rb', after_draws k w)
    /\ tick_rel agents rb rb'.
Proof.
  revert rb w. induction agents as [|agent rest IH]; intros rb w Hk.
  - exists rb, 0%nat. rewrite after_draws_0. split; [reflexivity|apply tick_rel_refl].
  - destruct (execute_strategy_spec agent mock_price env w) as (d & amount & k & E & Hd).
    destruct (Hk agent (or_introl eq_refl)) as [bal Hbal].
    set (rb1 := <[name agent := updated_balance bal d amount]> rb).
    assert (Hk1 : all_keys rest rb1).
    { intros a Ha. unfold rb1. destruct (decide (name agent = name a)) as [->|Hne].
      - rewrite lookup_insert_eq. eauto.
      - rewrite lookup_insert_ne by done. apply Hk. by right. }
    destruct (IH rb1 (after_draws k w) Hk1) as (rb' & k' & E' & Hdom & Hrel).
    exists rb', (k' + k)%nat. split.
    + cbn [agents_decide]. rewrite (bind_Ok _ _ _ _ _ _ E). cbv beta iota.
      unfold trade. rewrite (bind_Ok (ret tt) _ _ _ tt _ eq_refl).
      rewrite (bind_Ok _ _ _ _ _ _ (apply_decision_eq rb agent d amount env _ bal Hbal)).
      fold rb1. rewrite E'. by rewrite after_draws_add.
    + split.
      * rewrite Hdom. unfold rb1. rewrite dom_insert_L.
        apply subseteq_union_1_L, singleton_subseteq_l, elem_of_dom. eauto.
      * intros key b Hb.
        destruct (decide (name agent = key)) as [Heq|Hne].
        -- subst key. assert (b = bal) by congruence. subst b.
           destruct (Hrel (name agent) (updated_balance bal d amount)) as (b' & Hb' & Hn & Hm).
           { unfold rb1. by rewrite lookup_insert_eq. }
           exists b'. split; [done|]. pose proof (allowed_nonneg _ _ _ Hd) as Ha.
           split.
           ++ intros H0. apply Hn. destruct d; simpl; lia.
           ++ intros Hns.
              assert (d <> sell) as Hd'.
              { eapply allowed_never_sells; [|exact Hd]. apply Hns; [by left|done]. }
              assert (bal <= updated_balance bal d amount) by (destruct d; simpl; try lia; done).
              assert (updated_balance bal d amount <= b'); [|lia].
              apply Hm. intros a Ha' Hna. apply Hns; [by right|done].
        -- destruct (Hrel key b) as (b' & Hb' & Hn & Hm).
           { unfold rb1. by rewrite lookup_insert_ne. }
           exists b'. split; [done|]. split; [done|].
           intros Hns. apply Hm. intros a Ha' Hna. apply Hns; [by right|done].
Qed.

(** ** The end of the round *)

Lemma dict_get_eq rb a env w :
  is_Some (rb !! name a) -> dict_get rb (name a) env w = (Ok (balance_of rb a), w).
Proof. intros [b Hb]. unfold dict_get, balance_of. by rewrite Hb. Qed.

Lemma highest_balance_spec agents rb wa hi env w :
  all_keys agents rb ->
  exists wa' hi',
    highest_balance agents rb wa hi env w = (Ok (wa', hi'), w)
    /\ ((wa' = wa /\ hi' = hi /\ forall a, In a agents -> balance_of rb a <= hi)
        \/ exists pre x post,
             agents = (pre ++ x :: post)%list
             /\ wa' = Some x /\ hi' = balance_of rb x /\ hi < balance_of rb x
             /\ (forall a, In a pre -> balance_of rb a < balance_of rb x)
             /\ (forall a, In a post -> balance_of rb a <= balance_of rb x)).
Proof.
  revert wa hi. induction agents as [|agent rest IH]; intros wa hi Hk.
  - exists wa, hi. split; [reflexivity|]. left. repeat split. intros a [].
  - assert (Hk' : all_keys rest rb) by (intros a Ha; apply Hk; by right).
    cbn [highest_balance].
    rewrite (bind_Ok _ _ _ _ _ _ (dict_get_eq rb agent env w (Hk agent (or_introl eq_refl)))).
    destruct (balance_of rb agent >? hi) eqn:Hgt.
    + apply Z.gtb_lt in Hgt.
      destruct (IH (Some agent) (balance_of rb agent) Hk')
        as (wa' & hi' & E & [(-> & -> & Hle) | (pre & x & post & -> & -> & -> & Hlt & Hpre & Hpost)]).
      * exists (Some agent), (balance_of rb agent). split; [exact E|]. right.
        exists [], agent, rest. by repeat split.
      * exists (Some x), (balance_of rb x). split; [exact E|]. right.
        exists (agent :: pre), x, post. repeat split; try done; try lia.
        intros a [<- | Ha]; [lia | by apply Hpre].
    + assert (balance_of rb agent <= hi) as Hle0.
      { destruct (Z.gtb_spec (balance_of rb agent) hi); [discriminate | lia]. }
      destruct (IH wa hi Hk')
        as (wa' & hi' & E & [(-> & -> & Hle) | (pre & x & post & -> & -> & -> & Hlt & Hpre & Hpost)]).
      * exists wa, hi. split; [exact E|]. left. repeat split.
        intros a [<- | Ha]; [done | by apply Hle].
      * exists (Some x), (balance_of rb x). split; [exact E|]. right.
        exists (agent :: pre), x, post. repeat split; try done.
        intros a [<- | Ha]; [lia | by apply Hpre].
Qed.

Lemma settle_attempt_spec (tx : Tx) env w :
  exists w' cs,
    try_except
      (nonce <- w3_get_transaction_count ;;
       tx_hash <- send_transaction tx nonce ;;
       ret tt)
      (fun e => ret tt) env w = (Ok tt, w')
    /\ calls w' = (calls w ++ cs)%list
    /\ published w' = published w /\ live_state w' = live_state w
    /\ (cs = [(get_transaction_count, raises)]
        \/ exists n r, cs = [(get_transaction_count, int_reply n); (send tx n, r)]).
Proof.
  unfold try_except, bind, w3_get_transaction_count.
  destruct (node_count env (length (calls w))) as [n|] eqn:Hn.
  - unfold send_transaction.
    destruct (node_send env _ tx n) as [h|] eqn:Hs.
    + eexists _, _. split; [reflexivity|]. simpl. rewrite <- app_assoc. simpl.
      repeat split; right; eauto.
    + eexists _, _. split; [reflexivity|]. simpl. rewrite <- app_assoc. simpl.
      repeat split; right; eauto.
  - eexists _, _. split; [reflexivity|]. simpl. repeat split. by left.
Qed.

Lemma round_over_spec agents rb env w :
  all_keys agents rb ->
  exists w',
    round_over agents rb env w = (Ok tt, w')
    /\ published w' = published w
    /\ (((forall a, In a agents -> balance_of rb a <= 0) /\ calls w' = calls w)
        \/ exists winner cs,
             first_highest agents rb winner
             /\ calls w' = (calls w ++ cs)%list
             /\ settlement_attempt (address winner) cs).
Proof.
  intros Hk. unfold round_over.
  destruct (highest_balance_spec agents rb None 0 env w Hk)
    as (wa' & hi' & E & [(-> & -> & Hle) | (pre & x & post & -> & -> & -> & Hlt & Hpre & Hpost)]).
  - exists w. rewrite (bind_Ok _ _ _ _ _ _ E). cbv beta iota.
    split; [reflexivity|]. split; [reflexivity|]. left. by split.
  - rewrite (bind_Ok _ _ _ _ _ _ E). cbv beta iota.
    destruct (settle_attempt_spec (endRound (address x)) env w)
      as (w' & cs & E' & Hc & Hp & _ & Hcs).
    exists w'. split; [exact E'|]. split; [exact Hp|]. right.
    exists x, cs. split; [|by split].
    exists pre, post. by repeat split.
Qed.

Lemma first_highest_max agents rb winner a :
  first_highest agents rb winner -> In a agents ->
  balance_of rb a <= balance_of rb winner.
Proof.
  intros (pre & post & -> & _ & Hpre & Hpost) Ha.
  apply in_app_or in Ha as [Ha | [<- | Ha]].
  - specialize (Hpre a Ha). lia.
  - lia.
  - by apply Hpost.
Qed.

Lemma first_highest_In agents rb winner :
  first_highest agents rb winner -> In winner agents.
Proof. intros (pre & post & -> & _). apply in_or_app. right. by left. Qed.

Lemma settlement_attempt_nonempty addr cs : settlement_attempt addr cs -> cs <> [].
Proof. intros [-> | (n & r & ->)]; discriminate. Qed.

(** C1 (as the code has it).  [round_over] returns without an exception.
    It makes no request when no agent has a positive balance, and one
    settlement attempt when some agent has one: for the first agent of the
    list whose balance is the highest.  That is the agent alone at the top
    when there is one; a tie at the top does not prevent the settlement. *)
Theorem round_over_settlement agents rb env w :
  all_keys agents rb ->
  exists w' cs,
    round_over agents rb env w = (Ok tt, w')
    /\ calls w' = (calls w ++ cs)%list
    /\ ((forall a, In a agents -> balance_of rb a <= 0) <-> cs = [])
    /\ ((exists a, In a agents /\ 0 < balance_of rb a) ->
        exists winner,
          first_highest agents rb winner
          /\ settlement_attempt (address winner) cs)
    /\ (forall a, strict_winner agents rb a -> settlement_attempt (address a) cs).
Proof.
  intros Hk.
  destruct (round_over_spec agents rb env w Hk)
    as (w' & E & _ & [[Hle Hc] | (winner & cs & Hw & Hc & Hs)]).
  - exists w', []. split; [exact E|]. split; [by rewrite app_nil_r|].
    split; [done|]. split.
    + intros (a & Ha & Hpos). specialize (Hle a Ha). lia.
    + intros a (Ha & Hpos & _). specialize (Hle a Ha). lia.
  - exists w', cs. split; [exact E|]. split; [exact Hc|].
    pose proof (first_highest_In _ _ _ Hw) as Hin.
    assert (0 < balance_of rb winner) as Hpos by (by destruct Hw as (? & ? & _ & ? & _)).
    split; [|split].
    + split.
      * intros Hle. specialize (Hle winner Hin). lia.
      * intros ->. by apply settlement_attempt_nonempty in Hs.
    + intros _. by exists winner.
    + intros a (Ha & Hpa & Hstrict).
      destruct (decide (winner = a)) as [<- | Hne]; [exact Hs|].
      specialize (Hstrict winner Hin Hne).
      pose proof (first_highest_max _ _ _ a Hw Ha). lia.
Qed.

Lemma all_keys_tied : all_keys example_agents tied_balances.
Proof.
  intros a Ha. simpl in Ha.
  repeat (destruct Ha as [<- | Ha]; [vm_compute; eauto|]). contradiction.
Qed.

Lemma round_over_settlement_witness :
  exists w' cs,
    round_over example_agents tied_balances example_env initial_world = (Ok tt, w')
    /\ calls w' = (calls initial_world ++ cs)%list
    /\ ((forall a, In a example_agents -> balance_of tied_balances a <= 0) <-> cs = [])
    /\ ((exists a, In a example_agents /\ 0 < balance_of tied_balances a) ->
        exists winner,
          first_highest example_agents tied_balances winner
          /\ settlement_attempt (address winner) cs)
    /\ (forall a, strict_winner example_agents tied_balances a ->
          settlement_attempt (address a) cs).
Proof.
  exact (round_over_settlement example_agents tied_balances example_env
           initial_world all_keys_tied).
Defined.

(** C1 as stated fails: with Agent_Sniper and Agent_Hodler both at 40, the
    highest balance, [endRound] is sent all the same, for Agent_Sniper. *)
Lemma settlement_despite_tie :
  calls (snd (round_over example_agents tied_balances example_env initial_world))
    = [(get_transaction_count, int_reply 0);
       (send (endRound "address of key of Agent_Sniper") 0, hash_reply "0xhash")]
  /\ balance_of tied_balances agent_Sniper = 40
  /\ (forall a, In a example_agents -> balance_of tied_balances a <= 40)
  /\ ~ settles_only_strict_winner example_agents tied_balances example_env.
Proof.
  assert (Hc : calls (snd (round_over example_agents tied_balances example_env initial_world))
    = [(get_transaction_count, int_reply 0);
       (send (endRound "address of key of Agent_Sniper") 0, hash_reply "0xhash")])
    by (vm_compute; reflexivity).
  assert (Hall : forall a, In a example_agents -> balance_of tied_balances a <= 40).
  { intros a Ha. simpl in Ha.
    repeat (destruct Ha as [<- | Ha]; [vm_compute; discriminate|]). contradiction. }
  split; [exact Hc|]. split; [reflexivity|]. split; [exact Hall|].
  unfold settles_only_strict_winner. cbv zeta. rewrite Hc. intros [Hsend _].
  destruct Hsend as (a & Ha & Hpos & Hstrict).
  { eexists _, _, _. right. left. reflexivity. }
  set (hodler := mkAgent "Agent_Hodler" "key of Agent_Hodler" "Hodler"
                         "address of key of Agent_Hodler").
  assert (Hs : In agent_Sniper example_agents) by (simpl; tauto).
  assert (Hh : In hodler example_agents) by (simpl; tauto).
  pose proof (Hall a Ha) as Hle.
  destruct (decide (name a = "Agent_Sniper")) as [Hn|Hn].
  - specialize (Hstrict hodler Hh).
    assert (hodler <> a) as Hne by (intros <-; discriminate Hn).
    specialize (Hstrict Hne). change (balance_of tied_balances hodler) with 40 in Hstrict. lia.
  - specialize (Hstrict agent_Sniper Hs).
    assert (agent_Sniper <> a) as Hne by (intros <-; by apply Hn).
    specialize (Hstrict Hne).
    change (balance_of tied_balances agent_Sniper) with 40 in Hstrict. lia.
Qed.

(** ** The history buffer *)

Lemma history_append_short (h : list Entry) e :
  (length h < 50)%nat -> history_append h e = (h ++ [e])%list.
Proof.
  intros H. unfold history_append. rewrite length_app. simpl.
  destruct (Nat.ltb_spec 50 (length h + 1)); [lia | reflexivity].
Qed.

Lemma history_append_full (h : list Entry) e :
  (50 <= length h)%nat -> history_append h e = (drop 1 h ++ [e])%list.
Proof.
  intros H. unfold history_append. rewrite length_app. simpl.
  destruct (Nat.ltb_spec 50 (length h + 1)); [|lia].
  destruct h; [simpl in H; lia | reflexivity].
Qed.

Lemma history_append_length (h : list Entry) e :
  (length h <= 50)%nat ->
  length (history_append h e) = Nat.min 50 (length h + 1).
Proof.
  intros H. destruct (decide (length h < 50)%nat).
  - rewrite history_append_short by done. rewrite length_app. cbn [length]. lia.
  - rewrite history_append_full by lia. rewrite length_app, length_drop. cbn [length]. lia.
Qed.

Lemma history_fold_snoc (h : list Entry) es e :
  foldl history_append h (es ++ [e]) = history_append (foldl history_append h es) e.
Proof. by rewrite foldl_app. Qed.

Lemma history_fold_drop (entries : list Entry) :
  foldl history_append [] entries = drop (length entries - 50) entries.
Proof.
  induction entries as [|e l IH] using rev_ind; [reflexivity|].
  rewrite history_fold_snoc, IH, length_app. simpl.
  destruct (decide (length l < 50)%nat) as [Hlt|Hge].
  - replace (length l - 50)%nat with 0%nat by lia.
    replace (length l + 1 - 50)%nat with 0%nat by lia.
    rewrite !drop_0. by apply history_append_short.
  - rewrite history_append_full by (rewrite length_drop; lia).
    rewrite drop_drop.
    replace (length l + 1 - 50)%nat with (length l - 50 + 1)%nat by lia.
    rewrite drop_app_le by lia. reflexivity.
Qed.

(** C5.  The history starts empty and changes only by [history_append].
    Whatever entries are appended, the buffer holds 50 entries at most, and
    it holds the most recent ones in the order they were appended: the
    entries evicted are the oldest ones, and the evicted entries followed
    by the buffer are all the entries.  With 51 entries appended, the
    buffer is entries 2 to 51. *)
Theorem history_bounded_fifo (entries : list Entry) :
  let buffer := foldl history_append [] entries in
  (length buffer <= 50)%nat
  /\ length buffer = Nat.min 50 (length entries)
  /\ buffer = drop (length entries - 50) entries
  /\ entries = (take (length entries - 50) entries ++ buffer)%list
  /\ forall e, history_append buffer e
               = drop (length (entries ++ [e]) - 50) (entries ++ [e]).
Proof.
  cbv zeta. rewrite history_fold_drop. rewrite length_drop.
  repeat split; try lia.
  - by rewrite take_drop.
  - intros e. rewrite <- (history_fold_drop entries), <- history_fold_snoc.
    apply history_fold_drop.
Qed.

Example history_51_entries (e1 : Entry) (rest : list Entry) (e51 : Entry) :
  length rest = 49%nat ->
  foldl history_append [] (e1 :: rest ++ [e51]) = (rest ++ [e51])%list.
Proof.
  intros H. rewrite history_fold_drop. simpl. rewrite length_app, H. reflexivity.
Qed.

(** ** Balances over the ticks *)

Lemma zero_balances_fold agents (d : gmap string Z) key :
  foldl (fun d agent => <[name agent := 0]> d) d agents !! key
    = if decide (key ∈ map name agents) then Some 0 else d !! key.
Proof.
  revert d. induction agents as [|a rest IH]; intros d; cbn [foldl map].
  - case_decide as H; [by apply elem_of_nil in H | done].
  - rewrite IH.
    destruct (decide (key ∈ map name rest)) as [H1|H1];
      destruct (decide (key ∈ name a :: map name rest)) as [H2|H2];
      rewrite ?elem_of_cons in H2; try done.
    + exfalso. tauto.
    + destruct H2 as [->|H2]; [apply lookup_insert_eq | contradiction].
    + apply lookup_insert_ne. intros <-. tauto.
Qed.

Lemma zero_balances_lookup agents a :
  In a agents -> zero_balances agents !! name a = Some 0.
Proof.
  intros Ha. unfold zero_balances. rewrite zero_balances_fold.
  case_decide as H; [done|]. exfalso. apply H.
  apply list_elem_of_In, in_map, Ha.
Qed.

Lemma zero_balances_zero agents key b :
  zero_balances agents !! key = Some b -> b = 0.
Proof.
  unfold zero_balances. rewrite zero_balances_fold.
  case_decide; [congruence|]. by rewrite lookup_empty.
Qed.

Lemma all_keys_zero agents : all_keys agents (zero_balances agents).
Proof. intros a Ha. rewrite zero_balances_lookup by done. eauto. Qed.

Lemma all_keys_dom agents (rb rb' : gmap string Z) :
  dom rb' = dom rb -> all_keys agents rb -> all_keys agents rb'.
Proof.
  intros Hd Hk a Ha. apply elem_of_dom. rewrite Hd. apply elem_of_dom. by apply Hk.
Qed.

Lemma decided_tick_rel agents rb rb' :
  all_keys agents rb -> decided agents rb rb' -> tick_rel agents rb rb'.
Proof.
  intros Hk (p & env & w & w' & E).
  destruct (agents_decide_spec agents p rb env w Hk) as (rb2 & k & E2 & Hrel).
  rewrite E in E2. by simplify_eq.
Qed.

Lemma tick_rel_nonneg agents rb rb' :
  tick_rel agents rb rb' -> nonneg_balances rb -> nonneg_balances rb'.
Proof.
  intros [Hd Hrel] Hn key b' Hb'.
  assert (is_Some (rb !! key)) as [b Hb].
  { apply elem_of_dom. rewrite <- Hd. apply elem_of_dom. eauto. }
  destruct (Hrel key b Hb) as (b2 & Hb2 & H0 & _).
  assert (b2 = b') by congruence. subst. apply H0. by eapply Hn.
Qed.

Lemma tick_chain_keys agents rb es :
  all_keys agents rb -> tick_chain agents rb es ->
  all_keys agents (final_balances rb es)
  /\ Forall (fun e => all_keys agents (balances e)) es.
Proof.
  revert rb. induction es as [|e es IH]; intros rb Hk Hc; [by split|].
  destruct Hc as [Hd Hc]. pose proof (decided_tick_rel _ _ _ Hk Hd) as [Hdom _].
  pose proof (all_keys_dom _ _ _ Hdom Hk) as Hk'.
  destruct (IH _ Hk' Hc) as [H1 H2]. split; [exact H1|]. by constructor.
Qed.

Lemma tick_chain_nonneg agents rb es :
  all_keys agents rb -> nonneg_balances rb -> tick_chain agents rb es ->
  Forall (fun e => nonneg_balances (balances e)) es
  /\ nonneg_balances (final_balances rb es).
Proof.
  revert rb. induction es as [|e es IH]; intros rb Hk Hn Hc; [by split|].
  destruct Hc as [Hd Hc]. pose proof (decided_tick_rel _ _ _ Hk Hd) as Hrel.
  pose proof (all_keys_dom _ _ _ (proj1 Hrel) Hk) as Hk'.
  pose proof (tick_rel_nonneg _ _ _ Hrel Hn) as Hn'.
  destruct (IH _ Hk' Hn' Hc) as [H1 H2]. split; [by constructor | exact H2].
Qed.

Lemma tick_chain_app agents rb es e :
  tick_chain agents rb es -> decided agents (final_balances rb es) (balances e) ->
  tick_chain agents rb (es ++ [e]).
Proof.
  revert rb. induction es as [|x es IH]; intros rb Hc Hd; simpl in *.
  - by split.
  - destruct Hc as [H1 H2]. split; [done|]. by apply IH.
Qed.

(** ** [main.py]: funding, betting, the game phase *)

Lemma random_uniform_eq a b env w :
  exists mock_price, random_uniform a b env w = (Ok mock_price, after_draws 1 w).
Proof. eexists. reflexivity. Qed.

Lemma root_fund_agent_spec agent nonce env w :
  exists nonce' w',
    RootMain.fund_agent agent nonce env w = (Ok nonce', w')
    /\ published w' = published w /\ live_state w' = live_state w.
Proof.
  unfold RootMain.fund_agent, try_except, bind, w3_get_balance.
  destruct (node_balance env _ _) as [b|]; [|eexists _, _; by split].
  destruct (b <? low_balance_wei); [|eexists _, _; by split].
  unfold send_transaction.
  destruct (node_send env _ _ _); eexists _, _; by split.
Qed.

Lemma root_fund_loop_spec agents nonce env w :
  exists w',
    RootMain.fund_loop agents nonce env w = (Ok tt, w')
    /\ published w' = published w /\ live_state w' = live_state w.
Proof.
  revert nonce w. induction agents as [|a rest IH]; intros nonce w.
  - by exists w.
  - destruct (root_fund_agent_spec a nonce env w) as (n' & w1 & E & Hp & Hl).
    destruct (IH n' w1) as (w2 & E2 & Hp2 & Hl2).
    exists w2. cbn [RootMain.fund_loop]. rewrite (bind_Ok _ _ _ _ _ _ E).
    split; [exact E2|]. split; congruence.
Qed.

Lemma root_fund_agents_spec agents env w :
  exists r w',
    RootMain.fund_agents agents env w = (r, w')
    /\ published w' = published w /\ live_state w' = live_state w
    /\ match node_count env (length (calls w)) with
       | Some _ => r = Ok tt
       | None => r = Raise (RpcError get_transaction_count)
       end.
Proof.
  unfold RootMain.fund_agents, bind at 1, w3_get_transaction_count.
  destruct (node_count env (length (calls w))) as [n|].
  - destruct (root_fund_loop_spec agents n env
                (record_call get_transaction_count (int_reply n) w))
      as (w' & E & Hp & Hl).
    exists (Ok tt), w'. by rewrite E.
  - eexists _, _. by repeat split.
Qed.

Lemma set_betting_spec flag env w :
  exists w', set_betting flag env w = (Ok tt, w')
    /\ published w' = published w /\ live_state w' = live_state w.
Proof.
  destruct (settle_attempt_spec (setBettingActive flag) env w)
    as (w' & cs & E & _ & Hp & Hl & _).
  by exists w'.
Qed.

Lemma root_betting_phase_spec fuel betting_end h env w :
  exists n r w',
    RootMain.betting_phase fuel betting_end h env w = (r, w')
    /\ published w' = (published w ++ betting_snapshots n betting_end h)%list
    /\ calls w' = calls w
    /\ (r = Ok tt \/ r = OutOfFuel).
Proof.
  revert w. induction fuel as [|fuel IH]; intros w.
  - exists 0%nat, OutOfFuel, w. simpl. rewrite app_nil_r. repeat split; try done. by right.
  - cbn [RootMain.betting_phase]. unfold bind at 1, time_time.
    destruct (Qltb _ betting_end).
    + unfold bind at 1, RootMain.update_state. unfold sleep, bind at 1, ret at 1.
      match goal with |- context [RootMain.betting_phase fuel betting_end h env ?w1] =>
        destruct (IH w1) as (n & r & w' & E & Hp & Hc & Hr) end.
      exists (S n), r, w'. split; [exact E|]. split; [|by split].
      rewrite Hp. simpl. by rewrite <- app_assoc.
    + eexists 0%nat, (Ok tt), _. split; [reflexivity|]. simpl.
      rewrite app_nil_r. repeat split; try done. by left.
Qed.

Lemma root_market_tick_spec agents start_time rb h env w :
  all_keys agents rb ->
  exists e w',
    RootMain.market_tick agents start_time rb h env w
      = (Ok (balances e, history_append h e), w')
    /\ decided agents rb (balances e)
    /\ published w'
       = (published w ++ [{| phase := "ROUND"; roundEndTime := (start_time + 90)%Q;
                             history := history_append h e |}])%list
    /\ calls w' = calls w
    /\ clock_reads w' = S (clock_reads w).
Proof.
  intros Hk. unfold RootMain.market_tick.
  destruct (random_uniform_eq f0_1 f10_0 env w) as (p & Ep).
  rewrite (bind_Ok _ _ _ _ _ _ Ep).
  destruct (agents_decide_spec agents p rb env (after_draws 1 w) Hk) as (rb' & k & E & _).
  rewrite (bind_Ok _ _ _ _ _ _ E).
  eexists {| time := _; price := p; balances := rb' |}, _.
  split; [reflexivity|]. split; [|by repeat split].
  by exists p, env, (after_draws 1 w), (after_draws k (after_draws 1 w)).
Qed.

Lemma root_game_phase_spec fuel agents start_time rb h env w :
  all_keys agents rb ->
  exists es r w',
    RootMain.game_phase fuel agents start_time rb h env w = (r, w')
    /\ tick_chain agents rb es
    /\ published w' = (published w ++ round_snapshots (start_time + 90)%Q h es)%list
    /\ match r with
       | Ok locals =>
           es <> []
           /\ locals = mkLocals (foldl history_append h es)
                                (Some (final_balances rb es))
           /\ exists w1, calls w1 = calls w
                /\ round_over agents (final_balances rb es) env w1 = (Ok tt, w')
       | Raise _ => False
       | OutOfFuel => length es = fuel /\ calls w' = calls w
       end.
Proof.
  revert rb h w. induction fuel as [|fuel IH]; intros rb h w Hk.
  - exists [], OutOfFuel, w. simpl. rewrite app_nil_r. by repeat split.
  - cbn [RootMain.game_phase].
    destruct (root_market_tick_spec agents start_time rb h env w Hk)
      as (e & w1 & E & Hd & Hp & Hc & _).
    rewrite (bind_Ok _ _ _ _ _ _ E). cbv beta iota.
    pose proof (all_keys_dom _ _ _ (proj1 (decided_tick_rel _ _ _ Hk Hd)) Hk) as Hk1.
    unfold bind at 1, time_time.
    set (w2 := {| clock_reads := S (clock_reads w1); draws := draws w1;
                  calls := calls w1; live_state := live_state w1;
                  published := published w1 |}).
    destruct (Qgtb _ 90).
    + destruct (round_over_spec agents (balances e) env w2 Hk1)
        as (w' & E' & Hp' & _).
      exists [e], (Ok (mkLocals (history_append h e) (Some (balances e)))), w'.
      split; [by rewrite (bind_Ok _ _ _ _ _ _ E')|].
      split; [by split|]. split; [rewrite Hp'; subst w2; simpl; exact Hp|].
      split; [done|]. split; [done|]. exists w2. by split.
    + unfold sleep. rewrite (bind_Ok (ret tt) _ _ _ tt _ eq_refl).
      destruct (IH (balances e) (history_append h e) w2 Hk1)
        as (es & r & w' & E' & Hch & Hp' & Hr).
      exists (e :: es), r, w'. split; [exact E'|]. split; [by split|].
      split.
      { rewrite Hp'. subst w2. simpl. rewrite Hp. by rewrite <- app_assoc. }
      destruct r as [locals| |]; [|done|].
      * destruct Hr as (Hne & -> & w3 & Hc3 & E3). split; [done|]. split; [done|].
        exists w3. split; [|done]. by rewrite Hc3, <- Hc.
      * destruct Hr as [Hl Hc']. split; [simpl; by f_equal|]. by rewrite Hc', <- Hc.
Qed.

Lemma bind_Ok_inv {A B} (m : M A) (k : A -> M B) env w b w' :
  bind m k env w = (Ok b, w') ->
  exists a w1, m env w = (Ok a, w1) /\ k a env w1 = (Ok b, w').
Proof.
  unfold bind. destruct (m env w) as [[a| |] w1]; intros H; try discriminate.
  by exists a, w1.
Qed.

Lemma root_round_spec fuel agents locals env w :
  exists n betting_end start_time es r w',
    RootMain.round fuel agents locals env w = (r, w')
    /\ published w'
       = (published w ++ betting_snapshots n betting_end (loc_history locals)
            ++ round_snapshots (start_time + 90)%Q (loc_history locals) es)%list
    /\ tick_chain agents (zero_balances agents) es
    /\ match r with
       | Ok locals' =>
           es <> []
           /\ locals' = mkLocals (foldl history_append (loc_history locals) es)
                                 (Some (final_balances (zero_balances agents) es))
       | Raise e =>
           e = RpcError get_transaction_count /\ n = 0%nat /\ es = []
           /\ node_count env (length (calls w)) = None
       | OutOfFuel => True
       end.
Proof.
  unfold RootMain.round.
  destruct (root_fund_agents_spec agents env w) as (r0 & w0 & E0 & Hp0 & _ & Hr0).
  destruct (node_count env (length (calls w))) eqn:Hcount; subst r0.
  2:{ exists 0%nat, 0%Q, 0%Q, [], (Raise (RpcError get_transaction_count)), w0.
      rewrite (bind_Raise _ _ _ _ _ _ E0). simpl. rewrite app_nil_r. by repeat split. }
  rewrite (bind_Ok _ _ _ _ _ _ E0).
  destruct (set_betting_spec true env w0) as (w1 & E1 & Hp1 & _).
  rewrite (bind_Ok _ _ _ _ _ _ E1).
  unfold bind at 1, time_time.
  set (w2 := {| clock_reads := S (clock_reads w1); draws := draws w1;
                calls := calls w1; live_state := live_state w1;
                published := published w1 |}).
  set (betting_end := (clock env (clock_reads w1) + 30)%Q).
  destruct (root_betting_phase_spec fuel betting_end (loc_history locals) env w2)
    as (n & r & w3 & E3 & Hp3 & _ & [-> | ->]).
  2:{ exists n, betting_end, 0%Q, [], OutOfFuel, w3.
      rewrite (bind_OutOfFuel _ _ _ _ _ E3). simpl. rewrite app_nil_r.
      repeat split; try done. rewrite Hp3. subst w2. simpl. congruence. }
  rewrite (bind_Ok _ _ _ _ _ _ E3).
  destruct (set_betting_spec false env w3) as (w4 & E4 & Hp4 & _).
  rewrite (bind_Ok _ _ _ _ _ _ E4).
  unfold bind at 1, time_time.
  set (w5 := {| clock_reads := S (clock_reads w4); draws := draws w4;
                calls := calls w4; live_state := live_state w4;
                published := published w4 |}).
  set (start_time := clock env (clock_reads w4)).
  destruct (root_game_phase_spec fuel agents start_time (zero_balances agents)
              (loc_history locals) env w5 (all_keys_zero agents))
    as (es & r & w6 & E6 & Hch & Hp6 & Hr).
  exists n, betting_end, start_time, es, r, w6.
  split; [exact E6|]. split.
  { rewrite Hp6. subst w5. simpl. rewrite Hp4, Hp3. subst w2. simpl.
    rewrite Hp1, Hp0. by rewrite <- app_assoc. }
  split; [exact Hch|].
  destruct r as [locals'| |]; [|done|done].
  destruct Hr as (Hne & -> & _). by split.
Qed.

(** In [main.py] a round is left by an exception in one way only: the node
    fails to give the nonce of the funding sweep.  No failure of a
    submission, of [isAgent] or of [get_balance] ends a round. *)
Lemma root_round_survives_submission_failures fuel agents locals env w e w' :
  RootMain.round fuel agents locals env w = (Raise e, w') ->
  e = RpcError get_transaction_count
  /\ node_count env (length (calls w)) = None.
Proof.
  intros E.
  destruct (root_round_spec fuel agents locals env w)
    as (n & be & st & es & r & w1 & Er & _ & _ & Hr).
  rewrite E in Er. inversion Er; subst r w1. by destruct Hr as (? & _ & _ & ?).
Qed.

Lemma root_market_loop_survives_submission_failures rounds fuel agents env w e w' :
  (forall k, is_Some (node_count env k)) ->
  RootMain.market_loop rounds fuel agents env w <> (Raise e, w').
Proof.
  intros Hcount. unfold RootMain.market_loop. generalize (mkLocals [] None).
  revert w. induction rounds as [|rounds IH]; intros w locals E; [discriminate E|].
  cbn [RootMain.rounds_from] in E. unfold bind in E.
  destruct (RootMain.round fuel agents locals env w) as [[locals1|e1|] w1] eqn:Er.
  - by apply IH in E.
  - apply root_round_survives_submission_failures in Er as [_ Hn].
    destruct (Hcount (length (calls w))) as [x Hx]. congruence.
  - discriminate E.
Qed.

Lemma root_rounds_from_history rounds fuel agents locals env w locals' w' :
  RootMain.rounds_from rounds fuel agents locals env w = (Ok locals', w') ->
  exists es, loc_history locals' = foldl history_append (loc_history locals) es.
Proof.
  revert locals w. induction rounds as [|rounds IH]; intros locals w E.
  - inversion E; subst. by exists [].
  - cbn [RootMain.rounds_from] in E.
    apply bind_Ok_inv in E as (locals1 & w1 & E1 & E2).
    destruct (root_round_spec fuel agents locals env w)
      as (n & be & st & es & r & w1' & Er & _ & _ & Hr).
    rewrite E1 in Er. inversion Er; subst r w1'. destruct Hr as [_ ->].
    destruct (IH _ _ E2) as (es' & ->). exists (es ++ es')%list.
    simpl. by rewrite foldl_app.
Qed.

(** ** The claims on the balances *)

Lemma updated_balance_nonneg bal d amount :
  0 <= bal -> 0 <= amount -> 0 <= updated_balance bal d amount.
Proof. destruct d; simpl; lia. Qed.

(** C6.  Start from balances that hold every agent's key and no negative
    value (the zero balances of a game phase are such), and let the agents'
    loop run any number of times, at any prices and with any draws of the
    generator.  Every balance recorded on the way, and every balance at the
    end, is an integer that is not negative, and every agent keeps its key. *)
Theorem balances_never_negative agents (rb : gmap string Z) (es : list Entry) :
  all_keys agents rb -> nonneg_balances rb -> tick_chain agents rb es ->
  Forall (fun e => forall a, In a agents ->
            exists b, balances e !! name a = Some b /\ 0 <= b) es
  /\ (forall a, In a agents ->
        exists b, final_balances rb es !! name a = Some b /\ 0 <= b).
Proof.
  intros Hk Hn Hc.
  destruct (tick_chain_nonneg _ _ _ Hk Hn Hc) as [H1 Hf].
  destruct (tick_chain_keys _ _ _ Hk Hc) as [H2 H3].
  split.
  - rewrite Forall_forall in *. intros e He a Ha.
    destruct (H3 e He a Ha) as [b Hb]. exists b. split; [done|].
    by apply (H1 e He (name a)).
  - intros a Ha. destruct (H2 a Ha) as [b Hb]. exists b. split; [done|].
    by apply (Hf (name a)).
Qed.

Lemma nonneg_zero agents : nonneg_balances (zero_balances agents).
Proof. intros key b Hb. apply zero_balances_zero in Hb. lia. Qed.

Lemma example_tick_chain :
  tick_chain example_agents (zero_balances example_agents) [example_entry].
Proof.
  split; [|exact I].
  exists (5 # 2)%Q, example_env, initial_world. eexists.
  vm_compute. reflexivity.
Qed.

Lemma balances_never_negative_witness :
  Forall (fun e => forall a, In a example_agents ->
            exists b, balances e !! name a = Some b /\ 0 <= b) [example_entry]
  /\ (forall a, In a example_agents ->
        exists b, final_balances (zero_balances example_agents) [example_entry]
                    !! name a = Some b /\ 0 <= b).
Proof.
  exact (balances_never_negative example_agents (zero_balances example_agents)
           [example_entry] (all_keys_zero example_agents)
           (nonneg_zero example_agents) example_tick_chain).
Defined.

Example example_tick_balances_Sniper :
  example_tick_balances !! "Agent_Sniper" = Some 38
  /\ example_tick_balances !! "Agent_Degen" = Some 0.
Proof. split; vm_compute; reflexivity. Qed.

Lemma nondecreasing_chain agents rb es a :
  all_keys agents rb ->
  (forall a', In a' agents -> name a' = name a -> never_sells (strategy a')) ->
  In a agents ->
  tick_chain agents rb es ->
  nondecreasing_from (balance_of rb a) (map (fun e => balance_of (balances e) a) es).
Proof.
  intros Hk Hns Ha. revert rb Hk. induction es as [|e es IH]; intros rb Hk Hc; [exact I|].
  destruct Hc as [Hd Hc]. pose proof (decided_tick_rel _ _ _ Hk Hd) as [Hdom Hrel].
  pose proof (all_keys_dom _ _ _ Hdom Hk) as Hk'.
  simpl. split; [|by apply IH].
  destruct (Hk a Ha) as [b Hb].
  destruct (Hrel (name a) b Hb) as (b' & Hb' & _ & Hle).
  unfold balance_of. rewrite Hb, Hb'. simpl. by apply Hle.
Qed.

Lemma no_sell_strategies_never_sell s :
  In s no_sell_strategies -> never_sells s.
Proof.
  simpl. intros [<- | [<- | [<- | []]]]; reflexivity.
Qed.

(** C9.  An agent whose strategy is Sniper, Hodler or Whale gets [buy] or
    [hold] from [execute_strategy], never [sell].  So, when the agents have
    distinct names, the balance of such an agent never decreases from one
    tick of a game phase to the next. *)
Theorem no_sell_balance_nondecreasing agents (rb : gmap string Z)
    (es : list Entry) (a : MemeAgent) :
  In (strategy a) no_sell_strategies ->
  In a agents ->
  NoDup (map name agents) ->
  all_keys agents rb ->
  tick_chain agents rb es ->
  (forall market_price env w,
     exists d amount w',
       execute_strategy a market_price env w = (Ok (d, amount), w')
       /\ d <> sell)
  /\ nondecreasing_from (balance_of rb a)
       (map (fun e => balance_of (balances e) a) es).
Proof.
  intros Hs Ha Hnd Hk Hc.
  pose proof (no_sell_strategies_never_sell _ Hs) as Hns.
  split.
  - intros p env w.
    destruct (execute_strategy_spec a p env w) as (d & amount & k & E & Hd).
    exists d, amount, (after_draws k w). split; [exact E|].
    by eapply allowed_never_sells.
  - apply (nondecreasing_chain agents); try done.
    intros a' Ha' Hn.
    assert (a' = a) as ->; [|done].
    clear -Ha Ha' Hn Hnd. induction agents as [|x l IH]; [destruct Ha|].
    simpl in Hnd. apply NoDup_cons in Hnd as [Hx Hnd].
    destruct Ha as [->|Ha], Ha' as [->|Ha']; try done.
    + exfalso. apply Hx. rewrite <- Hn. apply list_elem_of_In, in_map, Ha'.
    + exfalso. apply Hx. rewrite Hn. apply list_elem_of_In, in_map, Ha.
    + by apply IH.
Qed.

Lemma example_agents_NoDup : NoDup (map name example_agents).
Proof. apply (bool_decide_unpack _). vm_compute. exact I. Qed.

Lemma no_sell_balance_nondecreasing_witness :
  (forall market_price env w,
     exists d amount w',
       execute_strategy agent_Sniper market_price env w = (Ok (d, amount), w')
       /\ d <> sell)
  /\ nondecreasing_from (balance_of (zero_balances example_agents) agent_Sniper)
       (map (fun e => balance_of (balances e) agent_Sniper) [example_entry]).
Proof.
  apply (no_sell_balance_nondecreasing example_agents
           (zero_balances example_agents) [example_entry] agent_Sniper).
  - simpl. tauto.
  - simpl. tauto.
  - exact example_agents_NoDup.
  - exact (all_keys_zero example_agents).
  - exact example_tick_chain.
Defined.

(** ** The published states *)

Lemma round_snapshots_lookup round_end h es i s :
  round_snapshots round_end h es !! i = Some s ->
  phase s = "ROUND" /\ roundEndTime s = round_end
  /\ history s = foldl history_append h (take (S i) es)
  /\ (i < length es)%nat.
Proof.
  revert h i. induction es as [|e es IH]; intros h i H; [done|].
  destruct i as [|i]; simpl in H.
  - inversion H; subst. simpl. rewrite ?take_0. repeat split. lia.
  - destruct (IH _ _ H) as (H1 & H2 & H3 & H4). repeat split; try done. simpl. lia.
Qed.

Lemma round_snapshots_last round_end h es :
  es <> [] ->
  exists s, last (round_snapshots round_end h es) = Some s
    /\ history s = foldl history_append h es.
Proof.
  revert h. induction es as [|e es IH]; intros h Hne; [done|].
  destruct es as [|e' es'].
  - eexists. split; reflexivity.
  - destruct (IH (history_append h e)) as (s & Hs & Hh); [done|].
    exists s. split; [|exact Hh]. exact Hs.
Qed.

Lemma betting_snapshots_In n betting_end h s :
  In s (betting_snapshots n betting_end h) ->
  phase s = "BETTING" /\ roundEndTime s = betting_end /\ history s = h.
Proof.
  unfold betting_snapshots. intros H. apply list_elem_of_In, elem_of_replicate in H as [-> _].
  by repeat split.
Qed.

Lemma history_fold_from (h es : list Entry) :
  (length h <= 50)%nat ->
  foldl history_append h es = drop (length (h ++ es) - 50) (h ++ es).
Proof.
  intros H. rewrite <- history_fold_drop, foldl_app. f_equal.
  rewrite history_fold_drop. replace (length h - 50)%nat with 0%nat by lia. by rewrite drop_0.
Qed.

Lemma history_fold_length (h es : list Entry) :
  (length h <= 50)%nat ->
  length (foldl history_append h es) = Nat.min 50 (length h + length es).
Proof.
  intros H. rewrite history_fold_from by done. rewrite length_drop, length_app. lia.
Qed.

Lemma last_app_nonempty {A} (l1 l2 : list A) x :
  last l2 = Some x -> last (l1 ++ l2) = Some x.
Proof.
  intros H. destruct l2 as [|y l2]; [done|]. rewrite last_app. by rewrite H.
Qed.

Lemma root_rounds_from_spec rounds fuel agents locals env w locals' w' :
  RootMain.rounds_from rounds fuel agents locals env w = (Ok locals', w') ->
  (exists es, loc_history locals' = foldl history_append (loc_history locals) es)
  /\ (rounds = 0%nat -> locals' = locals)
  /\ (rounds <> 0%nat ->
      exists s, last (published w') = Some s /\ history s = loc_history locals').
Proof.
  revert locals w. induction rounds as [|rounds IH]; intros locals w E.
  - inversion E; subst. split; [by exists []|]. by split.
  - cbn [RootMain.rounds_from] in E.
    apply bind_Ok_inv in E as (locals1 & w1 & E1 & E2).
    destruct (root_round_spec fuel agents locals env w)
      as (n & be & st & es & r & w1' & Er & Hp & _ & Hr).
    rewrite E1 in Er. inversion Er; subst r w1'. destruct Hr as [Hne ->].
    destruct (IH _ _ E2) as ((es' & Hes') & H0 & Hlast).
    split; [|split; [done|]].
    + exists (es ++ es')%list. rewrite Hes'. simpl. by rewrite foldl_app.
    + intros _. destruct rounds as [|rounds'].
      * rewrite (H0 eq_refl). inversion E2; subst.
        destruct (round_snapshots_last (st + 90)%Q (loc_history locals) es Hne)
          as (s & Hs & Hh).
        exists s. split; [|exact Hh]. rewrite Hp.
        by do 2 apply last_app_nonempty.
      * by apply Hlast.
Qed.

Lemma root_market_loop_history rounds fuel agents env w locals w' :
  RootMain.market_loop rounds fuel agents env w = (Ok locals, w') ->
  (length (loc_history locals) <= 50)%nat.
Proof.
  intros E. apply root_rounds_from_spec in E as ((es & ->) & _). simpl.
  rewrite history_fold_drop, length_drop. lia.
Qed.

(** ** The readings of the clock in a round of [main.py] *)

Lemma clockless_ret {A} (a : A) : clockless (ret a).
Proof. by intros env w. Qed.

Lemma clockless_raise {A} e : clockless (@raise A e).
Proof. by intros env w. Qed.

Lemma clockless_bind {A B} (m : M A) (k : A -> M B) :
  clockless m -> (forall a, clockless (k a)) -> clockless (bind m k).
Proof.
  intros Hm Hk env w. unfold bind. specialize (Hm env w).
  destruct (m env w) as [[a|e|] w1]; simpl in *; try done.
  rewrite (Hk a env w1). exact Hm.
Qed.

Lemma clockless_try {A} (m : M A) h :
  clockless m -> (forall e, clockless (h e)) -> clockless (try_except m h).
Proof.
  intros Hm Hh env w. unfold try_except. specialize (Hm env w).
  destruct (m env w) as [[a|e|] w1]; simpl in *; try done.
  rewrite (Hh e env w1). exact Hm.
Qed.

Lemma clockless_draw : clockless draw.
Proof. by intros env w. Qed.

Lemma clockless_count : clockless w3_get_transaction_count.
Proof. intros env w. unfold w3_get_transaction_count. by destruct (node_count env _). Qed.

Lemma clockless_isAgent addr : clockless (contract_isAgent addr).
Proof. intros env w. unfold contract_isAgent. by destruct (node_isAgent env _ _). Qed.

Lemma clockless_balance addr : clockless (w3_get_balance addr).
Proof. intros env w. unfold w3_get_balance. by destruct (node_balance env _ _). Qed.

Lemma clockless_send tx nonce : clockless (send_transaction tx nonce).
Proof. intros env w. unfold send_transaction. by destruct (node_send env _ _ _). Qed.

Lemma clockless_dict_get rb key : clockless (dict_get rb key).
Proof. unfold dict_get. destruct (rb !! key); [apply clockless_ret | apply clockless_raise]. Qed.

Ltac clockless_step :=
  first
    [ apply clockless_ret | apply clockless_raise | apply clockless_draw
    | apply clockless_count | apply clockless_isAgent | apply clockless_balance
    | apply clockless_send | apply clockless_dict_get
    | apply clockless_bind; [|intros ?]
    | apply clockless_try; [|intros ?]
    | match goal with
      | |- clockless (if ?c then _ else _) => destruct c
      | |- clockless (match ?x with _ => _ end) => destruct x
      end ].

Ltac clockless_tac := repeat clockless_step.

Lemma clockless_set_betting flag : clockless (set_betting flag).
Proof. unfold set_betting. clockless_tac. Qed.

Lemma clockless_root_fund_agents agents : clockless (RootMain.fund_agents agents).
Proof.
  unfold RootMain.fund_agents. apply clockless_bind; [apply clockless_count|]. intros nonce.
  revert nonce. induction agents as [|a rest IH]; intros nonce; cbn [RootMain.fund_loop].
  - apply clockless_ret.
  - apply clockless_bind; [|intros ?; apply IH].
    unfold RootMain.fund_agent, sleep. clockless_tac.
Qed.

(** The betting loop reads the clock once for each state it publishes and
    once more to leave. *)
Lemma root_betting_phase_reads fuel betting_end h env w :
  exists n r w',
    RootMain.betting_phase fuel betting_end h env w = (r, w')
    /\ published w' = (published w ++ betting_snapshots n betting_end h)%list
    /\ ((r = Ok tt /\ clock_reads w' = (clock_reads w + n + 1)%nat)
        \/ r = OutOfFuel).
Proof.
  revert w. induction fuel as [|fuel IH]; intros w.
  - exists 0%nat, OutOfFuel, w. simpl. rewrite app_nil_r. repeat split; try done. by right.
  - cbn [RootMain.betting_phase]. unfold bind at 1, time_time.
    destruct (Qltb _ betting_end).
    + unfold bind at 1, RootMain.update_state. unfold sleep, bind at 1, ret at 1.
      match goal with |- context [RootMain.betting_phase fuel betting_end h env ?w1] =>
        destruct (IH w1) as (n & r & w' & E & Hp & Hr) end.
      exists (S n), r, w'. split; [exact E|]. split.
      * rewrite Hp. simpl. by rewrite <- app_assoc.
      * destruct Hr as [[-> Hc] | ->]; [left | by right].
        split; [done|]. rewrite Hc. simpl. lia.
    + eexists 0%nat, (Ok tt), _. split; [reflexivity|]. simpl.
      rewrite app_nil_r. split; [done|]. left. split; [done|]. lia.
Qed.

(** A round reads the clock for [betting_end], then in the betting loop,
    then for [start_time]: with [n] states published by the betting loop,
    [start_time] is reading number [n + 2] of the round, counted from 0. *)
Lemma root_round_times fuel agents locals env w :
  exists n es r w',
    RootMain.round fuel agents locals env w = (r, w')
    /\ published w'
       = (published w
            ++ betting_snapshots n (clock env (clock_reads w) + 30)%Q (loc_history locals)
            ++ round_snapshots (clock env (clock_reads w + n + 2) + 90)%Q
                 (loc_history locals) es)%list
    /\ (forall locals', r = Ok locals' -> es <> []).
Proof.
  unfold RootMain.round.
  destruct (root_fund_agents_spec agents env w) as (r0 & w0 & E0 & Hp0 & _ & Hr0).
  pose proof (clockless_root_fund_agents agents env w) as Hc0.
  rewrite E0 in Hc0. simpl in Hc0.
  destruct (node_count env (length (calls w))) eqn:Hcount; subst r0.
  2:{ exists 0%nat, [], (Raise (RpcError get_transaction_count)), w0.
      rewrite (bind_Raise _ _ _ _ _ _ E0). simpl. rewrite app_nil_r. by repeat split. }
  rewrite (bind_Ok _ _ _ _ _ _ E0).
  destruct (set_betting_spec true env w0) as (w1 & E1 & Hp1 & _).
  pose proof (clockless_set_betting true env w0) as Hc1.
  rewrite E1 in Hc1. simpl in Hc1.
  rewrite (bind_Ok _ _ _ _ _ _ E1).
  unfold bind at 1, time_time.
  set (w2 := {| clock_reads := S (clock_reads w1); draws := draws w1;
                calls := calls w1; live_state := live_state w1;
                published := published w1 |}).
  assert (Hr1 : clock_reads w1 = clock_reads w) by congruence.
  rewrite Hr1.
  destruct (root_betting_phase_reads fuel (clock env (clock_reads w) + 30)%Q
              (loc_history locals) env w2)
    as (n & r & w3 & E3 & Hp3 & [[-> Hc3] | ->]).
  2:{ exists n, [], OutOfFuel, w3.
      rewrite (bind_OutOfFuel _ _ _ _ _ E3). simpl. rewrite app_nil_r.
      repeat split; try done. rewrite Hp3. subst w2. simpl. congruence. }
  rewrite (bind_Ok _ _ _ _ _ _ E3).
  destruct (set_betting_spec false env w3) as (w4 & E4 & Hp4 & _).
  pose proof (clockless_set_betting false env w3) as Hc4.
  rewrite E4 in Hc4. simpl in Hc4.
  rewrite (bind_Ok _ _ _ _ _ _ E4).
  unfold bind at 1, time_time.
  set (w5 := {| clock_reads := S (clock_reads w4); draws := draws w4;
                calls := calls w4; live_state := live_state w4;
                published := published w4 |}).
  assert (Hr4 : clock_reads w4 = (clock_reads w + n + 2)%nat).
  { rewrite Hc4, Hc3. subst w2. simpl. lia. }
  rewrite Hr4.
  destruct (root_game_phase_spec fuel agents (clock env (clock_reads w + n + 2))
              (zero_balances agents) (loc_history locals) env w5 (all_keys_zero agents))
    as (es & r & w6 & E6 & _ & Hp6 & Hr).
  exists n, es, r, w6. split; [exact E6|]. split.
  - rewrite Hp6. subst w5. simpl. rewrite Hp4, Hp3. subst w2. simpl.
    rewrite Hp1, Hp0. by rewrite <- app_assoc.
  - intros locals' ->. by destruct Hr as [Hne _].
Qed.

(** ** The claims on the rounds of [main.py] *)

(** C2 (as the code has it).  In any round that starts with a history of 50
    entries at most, the states published are those of the betting loop
    followed by those of the game phase.  Every state of the game phase has
    the phase ROUND (not TRADING), a history of min(50, entries held at the
    start of the round + ticks done so far) entries, and for its end time
    the value set when the game phase was entered: [start_time + 90], where
    [start_time] is the reading of the clock taken on entry, the first
    reading after those of the betting loop (one for each betting state and
    one to leave, after the one for [betting_end]).  A round that returns
    has published one state of the game phase at least.  The sum is taken
    exactly, as every sum of floats is in this model. *)
Theorem trading_snapshots fuel agents locals env w :
  (length (loc_history locals) <= 50)%nat ->
  exists betting trading,
    published (snd (RootMain.round fuel agents locals env w))
      = (published w ++ betting ++ trading)%list
    /\ (forall s, In s betting -> phase s = "BETTING")
    /\ (forall i s, trading !! i = Some s ->
         phase s = "ROUND"
         /\ roundEndTime s
            = (clock env (clock_reads w + length betting + 2) + 90)%Q
         /\ length (history s)
            = Nat.min 50 (length (loc_history locals) + S i))
    /\ (forall locals',
         fst (RootMain.round fuel agents locals env w) = Ok locals' ->
         trading <> []).
Proof.
  intros Hlen.
  destruct (root_round_times fuel agents locals env w)
    as (n & es & r & w' & E & Hp & Hne).
  exists (betting_snapshots n (clock env (clock_reads w) + 30)%Q (loc_history locals)),
         (round_snapshots (clock env (clock_reads w + n + 2) + 90)%Q
            (loc_history locals) es).
  rewrite E. split; [exact Hp|]. split; [|split].
  - intros s Hs. by apply betting_snapshots_In in Hs as [? _].
  - intros i s Hs. apply round_snapshots_lookup in Hs as (H1 & H2 & H3 & H4).
    split; [done|]. split.
    + unfold betting_snapshots. by rewrite length_replicate.
    + rewrite H3, history_fold_length by done. rewrite length_take. lia.
  - intros locals' Hr. specialize (Hne locals' Hr). by destruct es.
Qed.

Lemma trading_snapshots_witness :
  exists betting trading,
    published (snd (RootMain.round 10 example_agents (mkLocals [] None)
                      example_env initial_world))
      = (published initial_world ++ betting ++ trading)%list
    /\ (forall s, In s betting -> phase s = "BETTING")
    /\ (forall i s, trading !! i = Some s ->
         phase s = "ROUND"
         /\ roundEndTime s
            = (clock example_env (clock_reads initial_world + length betting + 2) + 90)%Q
         /\ length (history s)
            = Nat.min 50 (length (loc_history (mkLocals [] None)) + S i))
    /\ (forall locals',
         fst (RootMain.round 10 example_agents (mkLocals [] None)
                example_env initial_world) = Ok locals' ->
         trading <> []).
Proof.
  apply (trading_snapshots 10 example_agents (mkLocals [] None) example_env
           initial_world).
  simpl. lia.
Defined.

(** C2 as stated fails.  In the example the second round publishes two
    betting states and then the states of its game phase: the first of
    these, after one tick of that phase, has the phase ROUND and a history
    of six entries, five of them from the first round. *)
Lemma trading_snapshot_not_as_claimed :
  let w2 := snd (RootMain.market_loop 2 10 example_agents example_env initial_world) in
  map phase (published w2)
    = ["BETTING"; "BETTING"; "ROUND"; "ROUND"; "ROUND"; "ROUND"; "ROUND";
       "BETTING"; "BETTING"; "ROUND"; "ROUND"; "ROUND"; "ROUND"; "ROUND"]
  /\ map (fun s => length (history s)) (published w2)
    = [0; 0; 1; 2; 3; 4; 5; 5; 5; 6; 7; 8; 9; 10]%nat
  /\ exists s, published w2 !! 9%nat = Some s
       /\ phase s <> "TRADING"
       /\ length (history s) <> Nat.min 50 1
       /\ ~ trading_snapshot_as_claimed 1 (roundEndTime s) s.
Proof.
  cbv zeta. split; [vm_compute; reflexivity|]. split; [vm_compute; reflexivity|].
  eexists. split; [vm_compute; reflexivity|].
  split; [vm_compute; discriminate|]. split; [vm_compute; discriminate|].
  intros (H & _). vm_compute in H. discriminate H.
Qed.

(** C3 (as the code has it).  Whatever the local variables hold when a
    round starts, its game phase starts from balances in which every agent
    has 0: the entries the round records are a chain of passes of the
    agents' loop from these zero balances, and the balances the round
    leaves are those of the last entry. *)
Theorem balances_zero_at_game_start fuel agents locals env w :
  (forall a, In a agents -> zero_balances agents !! name a = Some 0)
  /\ (forall key b, zero_balances agents !! key = Some b -> b = 0)
  /\ exists n betting_end round_end es r w',
       RootMain.round fuel agents locals env w = (r, w')
       /\ published w'
          = (published w ++ betting_snapshots n betting_end (loc_history locals)
               ++ round_snapshots round_end (loc_history locals) es)%list
       /\ tick_chain agents (zero_balances agents) es
       /\ forall locals', r = Ok locals' ->
            es <> []
            /\ loc_round_balances locals'
               = Some (final_balances (zero_balances agents) es)
            /\ loc_history locals'
               = foldl history_append (loc_history locals) es.
Proof.
  split; [apply zero_balances_lookup|]. split; [apply zero_balances_zero|].
  destruct (root_round_spec fuel agents locals env w)
    as (n & be & st & es & r & w' & E & Hp & Hc & Hr).
  exists n, be, (st + 90)%Q, es, r, w'.
  split; [exact E|]. split; [exact Hp|]. split; [exact Hc|].
  intros locals' ->. destruct Hr as [Hne ->]. by repeat split.
Qed.

(** C3 as stated fails.  After the first round of the example Agent_Sniper
    holds 258 and Agent_Degen 187; these are the balances in place when
    the second round opens its betting phase. *)
Lemma balances_not_zero_at_betting_start :
  exists locals w1 rb,
    RootMain.market_loop 1 10 example_agents example_env initial_world
      = (Ok locals, w1)
    /\ loc_round_balances locals = Some rb
    /\ rb !! "Agent_Sniper" = Some 258
    /\ rb !! "Agent_Degen" = Some 187
    /\ ~ zero_at_betting_start example_agents locals.
Proof.
  eexists _, _, _. split; [vm_compute; reflexivity|].
  split; [reflexivity|]. split; [vm_compute; reflexivity|].
  split; [vm_compute; reflexivity|].
  unfold zero_at_betting_start. cbn [loc_round_balances].
  intros H. specialize (H agent_Sniper). 
  assert (In agent_Sniper example_agents) as Hin by (simpl; tauto).
  specialize (H Hin). vm_compute in H. discriminate H.
Qed.

(** C10.  The history is created once, empty, before the first round, and
    no round clears it.  After any number of completed rounds it holds 50
    entries at most and, when a round was played, it is the history of the
    last state published.  The next round publishes it unchanged in every
    state of its betting loop, and in its game phase publishes the last 50
    of its entries followed by the entries of the ticks done so far. *)
Theorem history_kept_across_rounds rounds fuel agents env w locals w1 :
  RootMain.market_loop rounds fuel agents env w = (Ok locals, w1) ->
  (rounds = 0%nat -> loc_history locals = [])
  /\ (rounds <> 0%nat ->
      exists s, last (published w1) = Some s /\ history s = loc_history locals)
  /\ (length (loc_history locals) <= 50)%nat
  /\ forall fuel', exists betting trading,
       published (snd (RootMain.round fuel' agents locals env w1))
         = (published w1 ++ betting ++ trading)%list
       /\ (forall s, In s betting ->
             phase s = "BETTING" /\ history s = loc_history locals)
       /\ forall i s, trading !! i = Some s ->
            phase s = "ROUND"
            /\ exists es, length es = S i
                 /\ history s
                    = drop (length (loc_history locals ++ es) - 50)
                           (loc_history locals ++ es).
Proof.
  intros E. pose proof (root_market_loop_history _ _ _ _ _ _ _ E) as Hlen.
  apply root_rounds_from_spec in E as (_ & H0 & Hlast).
  split; [intros Hr; by rewrite (H0 Hr)|]. split; [exact Hlast|].
  split; [exact Hlen|]. intros fuel'.
  destruct (root_round_spec fuel' agents locals env w1)
    as (n & be & st & es & r & w' & E & Hp & _ & _).
  exists (betting_snapshots n be (loc_history locals)),
         (round_snapshots (st + 90)%Q (loc_history locals) es).
  rewrite E. split; [exact Hp|]. split.
  - intros s Hs. by apply betting_snapshots_In in Hs as (? & _ & ?).
  - intros i s Hs. apply round_snapshots_lookup in Hs as (H1 & _ & H3 & H4).
    split; [done|]. exists (take (S i) es). split.
    + rewrite length_take. lia.
    + rewrite H3. by apply history_fold_from.
Qed.

Lemma history_kept_across_rounds_witness :
  exists locals w1,
    RootMain.market_loop 1 10 example_agents example_env initial_world
      = (Ok locals, w1)
    /\ (1%nat = 0%nat -> loc_history locals = [])
    /\ (1%nat <> 0%nat ->
        exists s, last (published w1) = Some s /\ history s = loc_history locals)
    /\ (length (loc_history locals) <= 50)%nat
    /\ forall fuel', exists betting trading,
         published (snd (RootMain.round fuel' example_agents locals example_env w1))
           = (published w1 ++ betting ++ trading)%list
         /\ (forall s, In s betting ->
               phase s = "BETTING" /\ history s = loc_history locals)
         /\ forall i s, trading !! i = Some s ->
              phase s = "ROUND"
              /\ exists es, length es = S i
                   /\ history s
                      = drop (length (loc_history locals ++ es) - 50)
                             (loc_history locals ++ es).
Proof.
  destruct (RootMain.market_loop 1 10 example_agents example_env initial_world)
    as [r w1] eqn:E.
  destruct r as [locals|e|].
  - exists locals, w1. split; [reflexivity|].
    exact (history_kept_across_rounds 1 10 example_agents example_env
             initial_world locals w1 E).
  - exfalso. vm_compute in E. discriminate E.
  - exfalso. vm_compute in E. discriminate E.
Defined.

Example history_after_two_rounds :
  map (fun s => length (history s))
      (published (snd (RootMain.market_loop 2 10 example_agents example_env
                         initial_world)))
    = [0; 0; 1; 2; 3; 4; 5; 5; 5; 6; 7; 8; 9; 10]%nat.
Proof. vm_compute. reflexivity. Qed.

(** ** Registration *)

Lemma root_register_agent_spec agent nonce env w :
  exists nonce' w' cs,
    RootMain.register_agent agent nonce env w = (Ok nonce', w')
    /\ calls w' = (calls w ++ cs)%list
    /\ published w' = published w /\ live_state w' = live_state w
    /\ registration_requests agent nonce cs.
Proof.
  unfold RootMain.register_agent, try_except, bind, contract_isAgent, registration_requests.
  destruct (node_isAgent env _ _) as [[|]|].
  - eexists _, _, _. split; [reflexivity|]. repeat split.
    eexists _, []. repeat split; intros; congruence.
  - unfold send_transaction. simpl.
    destruct (node_send env _ _ _); eexists _, _, _; (split; [reflexivity|]);
      simpl; rewrite <- app_assoc; repeat split;
      eexists _, _; repeat split; eauto; intros; congruence.
  - eexists _, _, _. split; [reflexivity|]. repeat split.
    eexists _, []. repeat split; intros; congruence.
Qed.

Lemma backend_register_agent_spec agent nonce env w :
  exists r w' cs,
    BackendMain.register_agent agent nonce env w = (r, w')
    /\ calls w' = (calls w ++ cs)%list
    /\ published w' = published w /\ live_state w' = live_state w
    /\ registration_requests agent nonce cs.
Proof.
  unfold BackendMain.register_agent, bind, contract_isAgent, registration_requests.
  destruct (node_isAgent env _ _) as [[|]|].
  - eexists _, _, _. split; [reflexivity|]. repeat split.
    eexists _, []. repeat split; intros; congruence.
  - unfold send_transaction. simpl.
    destruct (node_send env _ _ _); eexists _, _, _; (split; [reflexivity|]);
      simpl; rewrite <- app_assoc; repeat split;
      eexists _, _; repeat split; eauto; intros; congruence.
  - eexists _, _, _. split; [reflexivity|]. repeat split.
    eexists _, []. repeat split; intros; congruence.
Qed.

Lemma root_register_agent_sweep agent nonce env w :
  exists w' cs,
    RootMain.register_agent agent nonce env w = (Ok (nonce + accepted cs), w')
    /\ calls w' = (calls w ++ cs)%list
    /\ registration_requests agent nonce cs.
Proof.
  unfold RootMain.register_agent, try_except, bind, contract_isAgent, registration_requests.
  destruct (node_isAgent env _ _) as [[|]|].
  - eexists _, [(isAgent (address agent), bool_reply true)]. simpl.
    rewrite Z.add_0_r. split; [reflexivity|]. split; [done|].
    eexists _, []. repeat split; intros; congruence.
  - unfold send_transaction. simpl.
    destruct (node_send env _ _ _) as [h|].
    + eexists _, [(isAgent (address agent), bool_reply false);
                  (send (registerAgent (address agent)) nonce, hash_reply h)].
      simpl. split; [reflexivity|]. split; [simpl; by rewrite <- app_assoc|].
      eexists _, _. repeat split; eauto; intros; congruence.
    + eexists _, [(isAgent (address agent), bool_reply false);
                  (send (registerAgent (address agent)) nonce, raises)].
      simpl. rewrite Z.add_0_r. split; [reflexivity|]. split; [simpl; by rewrite <- app_assoc|].
      eexists _, _. repeat split; eauto; intros; congruence.
  - eexists _, [(isAgent (address agent), raises)]. simpl.
    rewrite Z.add_0_r. split; [reflexivity|]. split; [done|].
    eexists _, []. repeat split; intros; congruence.
Qed.

Lemma root_register_loop_sweep agents nonce env w :
  exists w' cs,
    RootMain.register_loop agents nonce env w = (Ok tt, w')
    /\ calls w' = (calls w ++ cs)%list
    /\ registration_sweep agents nonce cs.
Proof.
  revert nonce w. induction agents as [|a rest IH]; intros nonce w.
  - exists w, []. simpl. by rewrite app_nil_r.
  - destruct (root_register_agent_sweep a nonce env w) as (w1 & block & E & Hc & Hreq).
    destruct (IH (nonce + accepted block) w1) as (w2 & cs' & E2 & Hc2 & Hall).
    exists w2, (block ++ cs')%list. cbn [RootMain.register_loop].
    rewrite (bind_Ok _ _ _ _ _ _ E). split; [exact E2|].
    split; [rewrite Hc2, Hc; by rewrite <- app_assoc|].
    by exists block, cs'.
Qed.

(** In [backend/main.py] the registration of an agent has no [try]: a
    request that raises is its last, and the exception leaves it. *)
Lemma backend_register_agent_sweep agent nonce env w :
  exists r w' cs,
    BackendMain.register_agent agent nonce env w = (r, w')
    /\ calls w' = (calls w ++ cs)%list
    /\ registration_requests agent nonce cs
    /\ match r with
       | Ok nonce' => nonce' = nonce + accepted cs
       | Raise e => exists p req, cs = (p ++ [(req, raises)])%list /\ e = RpcError req
       | OutOfFuel => False
       end.
Proof.
  unfold BackendMain.register_agent, bind, contract_isAgent, registration_requests.
  destruct (node_isAgent env _ _) as [[|]|].
  - eexists _, _, [(isAgent (address agent), bool_reply true)]. simpl.
    split; [reflexivity|]. split; [done|]. split; [|lia].
    eexists _, []. repeat split; intros; congruence.
  - unfold send_transaction. simpl.
    destruct (node_send env _ _ _) as [h|].
    + eexists _, _, [(isAgent (address agent), bool_reply false);
                     (send (registerAgent (address agent)) nonce, hash_reply h)].
      simpl. split; [reflexivity|]. split; [simpl; by rewrite <- app_assoc|]. split; [|done].
      eexists _, _. repeat split; eauto; intros; congruence.
    + eexists _, _, [(isAgent (address agent), bool_reply false);
                     (send (registerAgent (address agent)) nonce, raises)].
      simpl. split; [reflexivity|]. split; [simpl; by rewrite <- app_assoc|]. split.
      * eexists _, _. repeat split; eauto; intros; congruence.
      * by exists [(isAgent (address agent), bool_reply false)],
                  (send (registerAgent (address agent)) nonce).
  - eexists _, _, [(isAgent (address agent), raises)]. simpl.
    split; [reflexivity|]. split; [done|]. split.
    + eexists _, []. repeat split; intros; congruence.
    + by exists [], (isAgent (address agent)).
Qed.

Lemma backend_register_loop_sweep agents nonce env w :
  exists r w' checked cs,
    BackendMain.register_loop agents nonce env w = (r, w')
    /\ calls w' = (calls w ++ cs)%list
    /\ registration_sweep checked nonce cs
    /\ match r with
       | Ok _ => checked = agents
       | Raise e =>
           (exists later, agents = (checked ++ later)%list)
           /\ exists p req, cs = (p ++ [(req, raises)])%list /\ e = RpcError req
       | OutOfFuel => False
       end.
Proof.
  revert nonce w. induction agents as [|a rest IH]; intros nonce w.
  - exists (Ok tt), w, [], []. simpl. by rewrite app_nil_r.
  - destruct (backend_register_agent_sweep a nonce env w)
      as (r1 & w1 & block & E & Hc & Hreq & Hr1).
    cbn [BackendMain.register_loop].
    destruct r1 as [nonce'|e|]; [|clear IH|done].
    + subst nonce'. rewrite (bind_Ok _ _ _ _ _ _ E).
      destruct (IH (nonce + accepted block) w1) as (r & w2 & checked & cs' & E2 & Hc2 & Hall & Hr).
      exists r, w2, (a :: checked), (block ++ cs')%list.
      split; [exact E2|]. split; [rewrite Hc2, Hc; by rewrite <- app_assoc|].
      split; [by exists block, cs'|].
      destruct r as [[]|e|]; [by subst | | done].
      destruct Hr as ((later & ->) & p & req & -> & ->). split; [by exists later|].
      exists (block ++ p)%list, req. by rewrite <- app_assoc.
    + rewrite (bind_Raise _ _ _ _ _ _ E).
      exists (Raise e), w1, [a], block. split; [done|]. split; [done|]. split.
      * exists block, []. by rewrite app_nil_r.
      * split; [by exists rest | exact Hr1].
Qed.

(** C8.  [register_agents], in [main.py] and in [backend/main.py], asks the
    node for the nonce and then takes the agents in the order of the list.
    For every agent it takes, it first asks the contract [isAgent] for the
    agent's address, and then sends [registerAgent] for that address, with
    the nonce as it stands, exactly when the answer was [False]; when the
    answer was [True], or the check raised, it sends nothing for that
    agent.  [main.py] takes every agent of the list and returns.
    [backend/main.py] takes every agent when it returns; a request that
    raises is its last, and the agents after it are not taken.  When the
    node does not give the nonce neither takes any agent. *)
Theorem registration_checks_first agents env w :
  match node_count env (length (calls w)) with
  | Some nonce =>
      (exists w' cs,
          RootMain.register_agents agents env w = (Ok tt, w')
          /\ calls w'
             = (calls w ++ (get_transaction_count, int_reply nonce) :: cs)%list
          /\ registration_sweep agents nonce cs)
      /\ (exists r w' checked cs,
            BackendMain.register_agents agents env w = (r, w')
            /\ calls w'
               = (calls w ++ (get_transaction_count, int_reply nonce) :: cs)%list
            /\ registration_sweep checked nonce cs
            /\ match r with
               | Ok _ => checked = agents
               | Raise e =>
                   (exists later, agents = (checked ++ later)%list)
                   /\ exists p req,
                        cs = (p ++ [(req, raises)])%list /\ e = RpcError req
               | OutOfFuel => False
               end)
  | None =>
      (exists w',
          RootMain.register_agents agents env w
            = (Raise (RpcError get_transaction_count), w')
          /\ calls w' = (calls w ++ [(get_transaction_count, raises)])%list)
      /\ (exists w',
            BackendMain.register_agents agents env w
              = (Raise (RpcError get_transaction_count), w')
            /\ calls w' = (calls w ++ [(get_transaction_count, raises)])%list)
  end.
Proof.
  destruct (node_count env (length (calls w))) as [nonce|] eqn:Hn.
  - split.
    + destruct (root_register_loop_sweep agents nonce env
                  (record_call get_transaction_count (int_reply nonce) w))
        as (w' & cs & E & Hc & Hall).
      exists w', cs. split; [|split; [|exact Hall]].
      * unfold RootMain.register_agents, bind at 1, w3_get_transaction_count.
        by rewrite Hn.
      * rewrite Hc. simpl. by rewrite <- app_assoc.
    + destruct (backend_register_loop_sweep agents nonce env
                  (record_call get_transaction_count (int_reply nonce) w))
        as (r & w' & checked & cs & E & Hc & Hall & Hr).
      exists r, w', checked, cs. split; [|split; [|by split]].
      * unfold BackendMain.register_agents, bind at 1, w3_get_transaction_count.
        by rewrite Hn.
      * rewrite Hc. simpl. by rewrite <- app_assoc.
  - split.
    + unfold RootMain.register_agents, bind at 1, w3_get_transaction_count.
      rewrite Hn. eexists. by split.
    + unfold BackendMain.register_agents, bind at 1, w3_get_transaction_count.
      rewrite Hn. eexists. by split.
Qed.

Example registration_example :
  calls (snd (RootMain.register_agents example_agents example_env initial_world))
    = [(get_transaction_count, int_reply 0);
       (isAgent "address of key of Agent_Sniper", bool_reply false);
       (send (registerAgent "address of key of Agent_Sniper") 0, hash_reply "0xhash");
       (isAgent "address of key of Agent_Hodler", bool_reply false);
       (send (registerAgent "address of key of Agent_Hodler") 1, hash_reply "0xhash");
       (isAgent "address of key of Agent_Degen", bool_reply false);
       (send (registerAgent "address of key of Agent_Degen") 2, hash_reply "0xhash");
       (isAgent "address of key of Agent_CopyTrader", bool_reply false);
       (send (registerAgent "address of key of Agent_CopyTrader") 3, hash_reply "0xhash");
       (isAgent "address of key of Agent_Whale", bool_reply false);
       (send (registerAgent "address of key of Agent_Whale") 4, hash_reply "0xhash")].
Proof. vm_compute. reflexivity. Qed.

Example registration_skipped_example :
  calls (snd (RootMain.register_agents example_agents nonce_fails_env initial_world))
    = [(get_transaction_count, int_reply 0);
       (isAgent "address of key of Agent_Sniper", bool_reply true);
       (isAgent "address of key of Agent_Hodler", bool_reply true);
       (isAgent "address of key of Agent_Degen", bool_reply true);
       (isAgent "address of key of Agent_CopyTrader", bool_reply true);
       (isAgent "address of key of Agent_Whale", bool_reply true)].
Proof. vm_compute. reflexivity. Qed.

Example backend_registration_stops_example :
  BackendMain.register_agents example_agents register_fails_env initial_world
    = (Raise (RpcError (send (registerAgent "address of key of Agent_Sniper") 0)),
       record_call (send (registerAgent "address of key of Agent_Sniper") 0) raises
         (record_call (isAgent "address of key of Agent_Sniper") (bool_reply false)
            (record_call get_transaction_count (int_reply 0) initial_world))).
Proof. vm_compute. reflexivity. Qed.

Lemma root_register_loop_spec agents nonce env w :
  exists w' blocks,
    RootMain.register_loop agents nonce env w = (Ok tt, w')
    /\ calls w' = (calls w ++ concat blocks)%list
    /\ published w' = published w /\ live_state w' = live_state w
    /\ Forall2 (fun a cs => exists n, registration_requests a n cs) agents blocks.
Proof.
  revert nonce w. induction agents as [|a rest IH]; intros nonce w.
  - exists w, []. simpl. rewrite app_nil_r. repeat split. constructor.
  - destruct (root_register_agent_spec a nonce env w)
      as (n' & w1 & cs & E & Hc & Hp & Hl & Hreq).
    destruct (IH n' w1) as (w2 & blocks & E2 & Hc2 & Hp2 & Hl2 & Hall).
    exists w2, (cs :: blocks). cbn [RootMain.register_loop].
    rewrite (bind_Ok _ _ _ _ _ _ E). split; [exact E2|].
    split; [rewrite Hc2, Hc; simpl; by rewrite <- app_assoc|].
    split; [congruence|]. split; [congruence|].
    constructor; [by exists nonce | done].
Qed.

(** In [main.py] no failure of [isAgent] or of a submission leaves
    [register_agents]: once the node has given the nonce, every agent is
    checked in turn and the function returns. *)
Lemma root_register_agents_spec agents env w nonce :
  node_count env (length (calls w)) = Some nonce ->
  exists w' blocks,
    RootMain.register_agents agents env w = (Ok tt, w')
    /\ calls w'
       = (calls w ++ (get_transaction_count, int_reply nonce) :: concat blocks)%list
    /\ published w' = published w
    /\ Forall2 (fun a cs => exists n, registration_requests a n cs) agents blocks.
Proof.
  intros Hn. unfold RootMain.register_agents, bind at 1, w3_get_transaction_count.
  rewrite Hn.
  destruct (root_register_loop_spec agents nonce env
              (record_call get_transaction_count (int_reply nonce) w))
    as (w' & blocks & E & Hc & Hp & _ & Hall).
  exists w', blocks. split; [exact E|]. split; [|by split].
  rewrite Hc. simpl. by rewrite <- app_assoc.
Qed.

(** C7, at the failing input.  The node rejects the registration of
    Agent_Sniper.  [main] of [backend/main.py] has no [try] around it: the
    exception leaves [register_agents] and [main], nothing is published and
    betting is never opened.  [blockchain_startup] of [main.py] catches the
    same failure, goes on to the other agents and plays the round. *)
Theorem backend_registration_failure_aborts :
  let r := BackendMain.main 1 10 example_agents register_fails_env initial_world in
  let r' := RootMain.blockchain_startup true true true 1 10 example_agents
              register_fails_env initial_world in
  fst r = Raise (RpcError (send (registerAgent "address of key of Agent_Sniper") 6))
  /\ published (snd r) = []
  /\ ~ sends_setBettingActive (calls (snd r))
  /\ fst r' = Ok tt
  /\ map phase (published (snd r'))
     = ["BETTING"; "BETTING"; "ROUND"; "ROUND"; "ROUND"; "ROUND"; "ROUND"]
  /\ sends_setBettingActive (calls (snd r')).
Proof.
  cbv zeta.
  split; [vm_compute; reflexivity|]. split; [vm_compute; reflexivity|].
  split.
  { intros (flag & n & r & Hin).
    assert (Hc : calls (snd (BackendMain.main 1 10 example_agents
                               register_fails_env initial_world))
      = [(get_transaction_count, int_reply 0);
         (get_balance "address of key of Agent_Sniper", int_reply 30000000000000000);
         (get_balance "address of key of Agent_Hodler", int_reply 30000000000000000);
         (get_balance "address of key of Agent_Degen", int_reply 30000000000000000);
         (get_balance "address of key of Agent_CopyTrader", int_reply 30000000000000000);
         (get_balance "address of key of Agent_Whale", int_reply 30000000000000000);
         (get_transaction_count, int_reply 6);
         (isAgent "address of key of Agent_Sniper", bool_reply false);
         (send (registerAgent "address of key of Agent_Sniper") 6, raises)])
      by (vm_compute; reflexivity).
    rewrite Hc in Hin. simpl in Hin.
    repeat (destruct Hin as [Hin|Hin]; [discriminate Hin|]). exact Hin. }
  split; [vm_compute; reflexivity|]. split; [vm_compute; reflexivity|].
  exists true, 23, (hash_reply "0xhash").
  vm_compute. tauto.
Qed.

(** In [main.py] the nonce of a funding sweep is asked for outside every
    [try] of [fund_agents].  When that request fails in the sweep that
    opens a round, the exception leaves [market_loop]; [blockchain_startup]
    catches it and returns, and no round is played. *)
Example root_nonce_failure_ends_rounds :
  let r := RootMain.blockchain_startup true true true 2 10 example_agents
             nonce_fails_env initial_world in
  fst r = Ok tt
  /\ published (snd r) = []
  /\ last (calls (snd r)) = Some (get_transaction_count, raises).
Proof. cbv zeta. repeat split; vm_compute; reflexivity. Qed.

(** ** [backend/main.py]: the same rounds *)

Lemma backend_fund_agent_spec agent nonce env w :
  exists r w',
    BackendMain.fund_agent agent nonce env w = (r, w')
    /\ published w' = published w /\ r <> OutOfFuel.
Proof.
  unfold BackendMain.fund_agent, bind, w3_get_balance.
  destruct (node_balance env _ _) as [b|]; [|eexists _, _; by split].
  destruct (b <? low_balance_wei); [|eexists _, _; by split].
  unfold send_transaction.
  destruct (node_send env _ _ _); eexists _, _; by split.
Qed.

Lemma backend_fund_loop_spec agents nonce env w :
  exists r w',
    BackendMain.fund_loop agents nonce env w = (r, w')
    /\ published w' = published w /\ r <> OutOfFuel.
Proof.
  revert nonce w. induction agents as [|a rest IH]; intros nonce w.
  - by exists (Ok tt), w.
  - destruct (backend_fund_agent_spec a nonce env w) as (r & w1 & E & Hp & Hr).
    cbn [BackendMain.fund_loop]. destruct r as [n'|e|]; [| |done].
    + destruct (IH n' w1) as (r2 & w2 & E2 & Hp2 & Hr2).
      exists r2, w2. rewrite (bind_Ok _ _ _ _ _ _ E).
      split; [exact E2|]. split; [congruence|done].
    + exists (Raise e), w1. rewrite (bind_Raise _ _ _ _ _ _ E). by repeat split.
Qed.

Lemma backend_fund_agents_spec agents env w :
  exists r w',
    BackendMain.fund_agents agents env w = (r, w')
    /\ published w' = published w /\ r <> OutOfFuel.
Proof.
  unfold BackendMain.fund_agents, bind at 1, w3_get_transaction_count.
  destruct (node_count env (length (calls w))) as [n|].
  - destruct (backend_fund_loop_spec agents n env
                (record_call get_transaction_count (int_reply n) w))
      as (r & w' & E & Hp & Hr).
    exists r, w'. rewrite E. by destruct r.
  - eexists _, _. by repeat split.
Qed.

Lemma backend_betting_phase_spec fuel betting_end h env w :
  exists n r w',
    BackendMain.betting_phase fuel betting_end h env w = (r, w')
    /\ published w' = (published w ++ betting_snapshots n betting_end h)%list
    /\ calls w' = calls w
    /\ (r = Ok tt \/ r = OutOfFuel).
Proof.
  revert w. induction fuel as [|fuel IH]; intros w.
  - exists 0%nat, OutOfFuel, w. simpl. rewrite app_nil_r. repeat split; try done. by right.
  - cbn [BackendMain.betting_phase]. unfold bind at 1, time_time.
    destruct (Qltb _ betting_end).
    + unfold bind at 1, time_time. unfold bind at 1, BackendMain.write_history_file.
      unfold sleep, bind at 1, ret at 1.
      match goal with |- context [BackendMain.betting_phase fuel betting_end h env ?w1] =>
        destruct (IH w1) as (n & r & w' & E & Hp & Hc & Hr) end.
      exists (S n), r, w'. split; [exact E|]. split; [|by split].
      rewrite Hp. simpl. by rewrite <- app_assoc.
    + eexists 0%nat, (Ok tt), _. split; [reflexivity|]. simpl.
      rewrite app_nil_r. repeat split; try done. by left.
Qed.

Lemma backend_market_tick_spec agents start_time rb h env w :
  all_keys agents rb ->
  exists e w',
    BackendMain.market_tick agents start_time rb h env w
      = (Ok (balances e, history_append h e), w')
    /\ decided agents rb (balances e)
    /\ published w'
       = (published w ++ [{| phase := "ROUND"; roundEndTime := (start_time + 90)%Q;
                             history := history_append h e |}])%list
    /\ calls w' = calls w.
Proof.
  intros Hk. unfold BackendMain.market_tick.
  destruct (random_uniform_eq f0_1 f10_0 env w) as (p & Ep).
  rewrite (bind_Ok _ _ _ _ _ _ Ep).
  destruct (agents_decide_spec agents p rb env (after_draws 1 w) Hk) as (rb' & k & E & _).
  rewrite (bind_Ok _ _ _ _ _ _ E).
  eexists {| time := _; price := p; balances := rb' |}, _.
  split; [reflexivity|]. split; [|by split].
  by exists p, env, (after_draws 1 w), (after_draws k (after_draws 1 w)).
Qed.

Lemma backend_game_phase_spec fuel agents start_time rb h env w :
  all_keys agents rb ->
  exists es r w',
    BackendMain.game_phase fuel agents start_time rb h env w = (r, w')
    /\ tick_chain agents rb es
    /\ published w' = (published w ++ round_snapshots (start_time + 90)%Q h es)%list
    /\ match r with
       | Ok locals =>
           es <> []
           /\ locals = mkLocals (foldl history_append h es)
                                (Some (final_balances rb es))
       | Raise _ => False
       | OutOfFuel => length es = fuel
       end.
Proof.
  revert rb h w. induction fuel as [|fuel IH]; intros rb h w Hk.
  - exists [], OutOfFuel, w. simpl. rewrite app_nil_r. by repeat split.
  - cbn [BackendMain.game_phase].
    destruct (backend_market_tick_spec agents start_time rb h env w Hk)
      as (e & w1 & E & Hd & Hp & Hc).
    rewrite (bind_Ok _ _ _ _ _ _ E). cbv beta iota.
    pose proof (all_keys_dom _ _ _ (proj1 (decided_tick_rel _ _ _ Hk Hd)) Hk) as Hk1.
    unfold bind at 1, time_time.
    set (w2 := {| clock_reads := S (clock_reads w1); draws := draws w1;
                  calls := calls w1; live_state := live_state w1;
                  published := published w1 |}).
    destruct (Qgtb _ 90).
    + destruct (round_over_spec agents (balances e) env w2 Hk1)
        as (w' & E' & Hp' & _).
      exists [e], (Ok (mkLocals (history_append h e) (Some (balances e)))), w'.
      split; [by rewrite (bind_Ok _ _ _ _ _ _ E')|].
      split; [by split|]. split; [rewrite Hp'; subst w2; simpl; exact Hp|].
      by split.
    + unfold sleep. rewrite (bind_Ok (ret tt) _ _ _ tt _ eq_refl).
      destruct (IH (balances e) (history_append h e) w2 Hk1)
        as (es & r & w' & E' & Hch & Hp' & Hr).
      exists (e :: es), r, w'. split; [exact E'|]. split; [by split|].
      split.
      { rewrite Hp'. subst w2. simpl. rewrite Hp. by rewrite <- app_assoc. }
      destruct r as [locals| |]; [|done|].
      * destruct Hr as (Hne & ->). by split.
      * simpl. by f_equal.
Qed.

(** The rounds of [backend/main.py] publish as those of [main.py] do: the
    history the round started with, unchanged, through the betting loop;
    then the states of a game phase that starts from zero balances. *)
Lemma backend_round_spec fuel agents locals env w :
  exists n betting_end start_time es r w',
    BackendMain.round fuel agents locals env w = (r, w')
    /\ published w'
       = (published w ++ betting_snapshots n betting_end (loc_history locals)
            ++ round_snapshots (start_time + 90)%Q (loc_history locals) es)%list
    /\ tick_chain agents (zero_balances agents) es
    /\ match r with
       | Ok locals' =>
           es <> []
           /\ locals' = mkLocals (foldl history_append (loc_history locals) es)
                                 (Some (final_balances (zero_balances agents) es))
       | Raise e => n = 0%nat /\ es = []
       | OutOfFuel => True
       end.
Proof.
  unfold BackendMain.round.
  destruct (backend_fund_agents_spec agents env w) as (r0 & w0 & E0 & Hp0 & Hr0).
  destruct r0 as [[]|e|]; [| |done].
  2:{ exists 0%nat, 0%Q, 0%Q, [], (Raise e), w0.
      rewrite (bind_Raise _ _ _ _ _ _ E0). simpl. rewrite app_nil_r. by repeat split. }
  rewrite (bind_Ok _ _ _ _ _ _ E0).
  destruct (set_betting_spec true env w0) as (w1 & E1 & Hp1 & _).
  rewrite (bind_Ok _ _ _ _ _ _ E1).
  unfold bind at 1, time_time.
  set (w2 := {| clock_reads := S (clock_reads w1); draws := draws w1;
                calls := calls w1; live_state := live_state w1;
                published := published w1 |}).
  set (betting_end := (clock env (clock_reads w1) + 30)%Q).
  destruct (backend_betting_phase_spec fuel betting_end (loc_history locals) env w2)
    as (n & r & w3 & E3 & Hp3 & _ & [-> | ->]).
  2:{ exists n, betting_end, 0%Q, [], OutOfFuel, w3.
      rewrite (bind_OutOfFuel _ _ _ _ _ E3). simpl. rewrite app_nil_r.
      repeat split; try done. rewrite Hp3. subst w2. simpl. congruence. }
  rewrite (bind_Ok _ _ _ _ _ _ E3).
  destruct (set_betting_spec false env w3) as (w4 & E4 & Hp4 & _).
  rewrite (bind_Ok _ _ _ _ _ _ E4).
  unfold bind at 1, time_time.
  set (w5 := {| clock_reads := S (clock_reads w4); draws := draws w4;
                calls := calls w4; live_state := live_state w4;
                published := published w4 |}).
  set (start_time := clock env (clock_reads w4)).
  destruct (backend_game_phase_spec fuel agents start_time (zero_balances agents)
              (loc_history locals) env w5 (all_keys_zero agents))
    as (es & r & w6 & E6 & Hch & Hp6 & Hr).
  exists n, betting_end, start_time, es, r, w6.
  split; [exact E6|]. split.
  { rewrite Hp6. subst w5. simpl. rewrite Hp4, Hp3. subst w2. simpl.
    rewrite Hp1, Hp0. by rewrite <- app_assoc. }
  split; [exact Hch|].
  by destruct r as [locals'| |].
Qed.

Example backend_two_rounds :
  let r := BackendMain.market_loop 2 10 example_agents example_env initial_world in
  map phase (published (snd r))
    = ["BETTING"; "ROUND"; "ROUND"; "ROUND"; "ROUND"; "ROUND";
       "BETTING"; "ROUND"; "ROUND"; "ROUND"; "ROUND"; "ROUND"]
  /\ map (fun s => length (history s)) (published (snd r))
    = [0; 1; 2; 3; 4; 5; 5; 6; 7; 8; 9; 10]%nat.
Proof. cbv zeta. split; vm_compute; reflexivity. Qed.

(** ** The rounds of [main.py] return

    With a clock that advances, a node that gives the nonce and 46 turns
    of fuel, every round comes to its end. *)

Lemma Qltb_lt x y : Qltb x y = true <-> (x < y)%Q.
Proof. unfold Qltb, Qlt. apply Z.ltb_lt. Qed.

Lemma Qltb_ge x y : Qltb x y = false <-> (y <= x)%Q.
Proof. unfold Qltb, Qle. apply Z.ltb_ge. Qed.

Lemma root_betting_phase_returns fuel betting_end h env w :
  clock_advances env ->
  (betting_end <= clock env (clock_reads w) + inject_Z (Z.of_nat fuel))%Q ->
  exists w', RootMain.betting_phase (S fuel) betting_end h env w = (Ok tt, w').
Proof.
  intros Hclock. revert w. induction fuel as [|fuel IH]; intros w Hle.
  - cbn [RootMain.betting_phase]. unfold bind at 1, time_time.
    destruct (Qltb _ betting_end) eqn:Hlt; [|eexists; reflexivity].
    apply Qltb_lt in Hlt. change (inject_Z (Z.of_nat 0)) with 0%Q in Hle. lra.
  - change (RootMain.betting_phase (S (S fuel)) betting_end h env w)
      with (bind time_time (fun now =>
              if Qltb now betting_end then
                bind (RootMain.update_state "BETTING" betting_end h) (fun _ =>
                bind (sleep 1) (fun _ =>
                RootMain.betting_phase (S fuel) betting_end h))
              else ret tt) env w).
    unfold bind at 1, time_time.
    destruct (Qltb _ betting_end) eqn:Hlt; [|eexists; reflexivity].
    unfold bind at 1, RootMain.update_state. unfold sleep, bind at 1, ret at 1.
    apply IH. cbn [clock_reads]. pose proof (Hclock (clock_reads w)) as Hs.
    apply Qltb_lt in Hlt.
    rewrite Nat2Z.inj_succ, <- Z.add_1_r, inject_Z_plus in Hle.
    change (inject_Z 1) with 1%Q in Hle. lra.
Qed.

Lemma root_game_phase_S fuel agents start_time rb h :
  RootMain.game_phase (S fuel) agents start_time rb h
  = (st <- RootMain.market_tick agents start_time rb h ;;
     let '(round_balances, history) := st in
     now <- time_time ;;
     if Qgtb (now - start_time)%Q 90 then
       round_over agents round_balances ;;;
       ret (mkLocals history (Some round_balances))
     else
       sleep 2 ;;;
       RootMain.game_phase fuel agents start_time round_balances history).
Proof. reflexivity. Qed.

Lemma root_game_phase_returns fuel agents start_time rb h env w :
  clock_advances env ->
  all_keys agents rb ->
  (start_time + 90 < clock env (S (clock_reads w))
                     + inject_Z (2 * Z.of_nat fuel))%Q ->
  exists locals w',
    RootMain.game_phase (S fuel) agents start_time rb h env w = (Ok locals, w').
Proof.
  intros Hclock. revert rb h w. induction fuel as [|fuel IH]; intros rb h w Hk Hlt.
  all: rewrite root_game_phase_S.
  all: destruct (root_market_tick_spec agents start_time rb h env w Hk)
         as (e & w1 & E & Hd & _ & _ & Hcr).
  all: rewrite (bind_Ok _ _ _ _ _ _ E); cbv beta iota.
  all: pose proof (all_keys_dom _ _ _ (proj1 (decided_tick_rel _ _ _ Hk Hd)) Hk) as Hk1.
  all: unfold bind at 1, time_time; rewrite Hcr.
  all: set (w2 := {| clock_reads := S (S (clock_reads w)); draws := draws w1;
                     calls := calls w1; live_state := live_state w1;
                     published := published w1 |}).
  all: destruct (Qgtb _ 90) eqn:Hgt.
  all: try (destruct (round_over_spec agents (balances e) env w2 Hk1) as (w' & E' & _);
            eexists _, w'; by rewrite (bind_Ok _ _ _ _ _ _ E')).
  - exfalso. apply Qltb_ge in Hgt.
    change (inject_Z (2 * Z.of_nat 0)) with 0%Q in Hlt. lra.
  - unfold sleep. rewrite (bind_Ok (ret tt) _ _ _ tt _ eq_refl).
    apply IH; [exact Hk1|]. subst w2. cbn [clock_reads].
    pose proof (Hclock (S (clock_reads w))) as H1.
    pose proof (Hclock (S (S (clock_reads w)))) as H2.
    replace (2 * Z.of_nat (S fuel)) with (2 * Z.of_nat fuel + 2) in Hlt by lia.
    rewrite inject_Z_plus in Hlt. change (inject_Z 2) with 2%Q in Hlt. lra.
Qed.

Lemma root_round_returns fuel agents locals env w :
  clock_advances env -> nonce_given env -> (46 <= fuel)%nat ->
  exists locals' w', RootMain.round fuel agents locals env w = (Ok locals', w').
Proof.
  intros Hclock Hnonce Hfuel. unfold RootMain.round.
  destruct (root_fund_agents_spec agents env w) as (r0 & w0 & E0 & _ & _ & Hr0).
  destruct (Hnonce (length (calls w))) as [n0 Hn0]. rewrite Hn0 in Hr0. subst r0.
  rewrite (bind_Ok _ _ _ _ _ _ E0).
  destruct (set_betting_spec true env w0) as (w1 & E1 & _).
  rewrite (bind_Ok _ _ _ _ _ _ E1).
  unfold bind at 1, time_time.
  set (w2 := {| clock_reads := S (clock_reads w1); draws := draws w1;
                calls := calls w1; live_state := live_state w1;
                published := published w1 |}).
  destruct fuel as [|fuel]; [lia|].
  destruct (root_betting_phase_returns fuel (clock env (clock_reads w1) + 30)%Q
              (loc_history locals) env w2 Hclock) as (w3 & E3).
  { subst w2. cbn [clock_reads]. pose proof (Hclock (clock_reads w1)).
    assert (45 <= inject_Z (Z.of_nat fuel))%Q.
    { change 45%Q with (inject_Z 45). rewrite <- Zle_Qle. lia. }
    lra. }
  rewrite (bind_Ok _ _ _ _ _ _ E3).
  destruct (set_betting_spec false env w3) as (w4 & E4 & _).
  rewrite (bind_Ok _ _ _ _ _ _ E4).
  unfold bind at 1, time_time.
  set (w5 := {| clock_reads := S (clock_reads w4); draws := draws w4;
                calls := calls w4; live_state := live_state w4;
                published := published w4 |}).
  apply root_game_phase_returns; [exact Hclock | apply all_keys_zero |].
  subst w5. cbn [clock_reads].
  pose proof (Hclock (clock_reads w4)) as H1.
  pose proof (Hclock (S (clock_reads w4))) as H2.
  assert (90 <= inject_Z (2 * Z.of_nat fuel))%Q.
  { change 90%Q with (inject_Z 90). rewrite <- Zle_Qle. lia. }
  lra.
Qed.

(** With such a clock and such a node, [market_loop] plays as many rounds
    as asked for, whatever the node answers to the other requests. *)
Lemma root_market_loop_returns rounds fuel agents env w :
  clock_advances env -> nonce_given env -> (46 <= fuel)%nat ->
  exists locals w', RootMain.market_loop rounds fuel agents env w = (Ok locals, w').
Proof.
  intros Hclock Hnonce Hfuel. unfold RootMain.market_loop.
  generalize (mkLocals [] None). revert w.
  induction rounds as [|rounds IH]; intros w locals; [by eexists _, _|].
  cbn [RootMain.rounds_from].
  destruct (root_round_returns fuel agents locals env w Hclock Hnonce Hfuel)
    as (locals1 & w1 & E1).
  rewrite (bind_Ok _ _ _ _ _ _ E1). apply IH.
Qed.

(** So the service of [main.py] gets through its start-up and its rounds
    whichever submissions, registration checks and balance queries fail. *)
Lemma root_startup_plays_rounds rounds fuel agents env w :
  clock_advances env -> nonce_given env -> (46 <= fuel)%nat ->
  exists w0 locals w1,
    (RootMain.fund_agents agents ;;; RootMain.register_agents agents) env w
      = (Ok tt, w0)
    /\ RootMain.market_loop rounds fuel agents env w0 = (Ok locals, w1)
    /\ RootMain.blockchain_startup true true true rounds fuel agents env w
       = (Ok tt, w1).
Proof.
  intros Hclock Hnonce Hfuel.
  destruct (root_fund_agents_spec agents env w) as (r0 & wf & E0 & _ & _ & Hr0).
  destruct (Hnonce (length (calls w))) as [n0 Hn0]. rewrite Hn0 in Hr0. subst r0.
  destruct (Hnonce (length (calls wf))) as [n1 Hn1].
  destruct (root_register_agents_spec agents env wf n1 Hn1) as (w0 & blocks & E1 & _).
  destruct (root_market_loop_returns rounds fuel agents env w0 Hclock Hnonce Hfuel)
    as (locals & w1 & E2).
  exists w0, locals, w1. split; [|split; [exact E2|]].
  - by rewrite (bind_Ok _ _ _ _ _ _ E0).
  - unfold RootMain.blockchain_startup, sleep.
    rewrite (bind_Ok (ret tt) _ _ _ tt _ eq_refl). cbn [negb].
    apply try_Ok.
    rewrite (bind_Ok _ _ _ _ _ _ E0), (bind_Ok _ _ _ _ _ _ E1).
    by rewrite (bind_Ok _ _ _ _ _ _ E2).
Qed.

(** ** The agents of [create_agents] *)

Lemma create_agents_names key_of address_of :
  map name (create_agents key_of address_of)
  = ["Agent_Sniper"; "Agent_Hodler"; "Agent_Degen"; "Agent_CopyTrader"; "Agent_Whale"].
Proof. reflexivity. Qed.

Lemma create_agents_NoDup key_of address_of :
  NoDup (map name (create_agents key_of address_of)).
Proof.
  rewrite create_agents_names. apply (bool_decide_unpack _). vm_compute. exact I.
Qed.

Lemma create_agents_strategies key_of address_of a :
  In a (create_agents key_of address_of) -> In (strategy a) STRATEGIES.
Proof.
  unfold create_agents. intros H. apply in_map_iff in H as (s & <- & Hs). exact Hs.
Qed.

(** Every entry a round of [main.py] records holds no negative balance. *)
Lemma root_round_entries_nonneg fuel agents locals env w :
  exists es,
    (forall locals' w',
       RootMain.round fuel agents locals env w = (Ok locals', w') ->
       loc_history locals' = foldl history_append (loc_history locals) es
       /\ loc_round_balances locals'
          = Some (final_balances (zero_balances agents) es))
    /\ Forall (fun e => nonneg_balances (balances e)) es
    /\ nonneg_balances (final_balances (zero_balances agents) es).
Proof.
  destruct (root_round_spec fuel agents locals env w)
    as (n & be & st & es & r & w1 & E & _ & Hc & Hr).
  exists es. split.
  - intros locals' w' E'. rewrite E' in E. inversion E; subst r w1.
    by destruct Hr as [_ ->].
  - apply (tick_chain_nonneg agents); [apply all_keys_zero | apply nonneg_zero | exact Hc].
Qed.
